(** * mini_calc: the arithmetic evaluator of [mini_calc/app.py]

    The program is a Tkinter window with two entry fields, four operator
    buttons and a result display.  Its only behavioural logic is the
    function [calculate(op)]: it reads the two entries, replaces every
    comma by a period, converts both texts with the builtin [float],
    dispatches on the operator string and writes either a number or a
    message into the [StringVar] that drives the display.

    This development embeds that function as a state-and-exception
    computation over the widgets it touches, together with the builtin
    [float] constructor (string to binary64 conversion as CPython performs
    it) and binary64 arithmetic (the [SpecFloat] specification at
    precision 53, exponent bound 1024). *)

From Stdlib Require Import ZArith NArith List Bool String Ascii Lia QArith Qabs.
From Stdlib Require Import Floats.SpecFloat.
Import ListNotations.

Local Open Scope Z_scope.

(** ** Python strings *)

(** A Python [str] is a sequence of Unicode code points. *)
Definition codepoint := N.
Definition pystr := list codepoint.

(** [chr c] is the code point of an ASCII character and [str s] the Python
    string of an ASCII literal. *)
Definition chr (c : ascii) : codepoint := N_of_ascii c.
Definition str (s : string) : pystr := map chr (list_ascii_of_string s).

Fixpoint pystr_eqb (s t : pystr) : bool :=
  match s, t with
  | [], [] => true
  | c :: s', d :: t' => N.eqb c d && pystr_eqb s' t'
  | _, _ => false
  end.

(** [s.replace(old, new)] for one-character [old] and [new]: every
    occurrence of the character is replaced, nothing else changes. *)
Definition replace (old new : codepoint) (s : pystr) : pystr :=
  map (fun c => if N.eqb c old then new else c) s.

(** [count c s] is [s.count(c)] for a one-character [c]. *)
Definition count (c : codepoint) (s : pystr) : nat :=
  List.length (filter (N.eqb c) s).

(** ** binary64 *)

Definition prec : Z := 53.
Definition emax : Z := 1024.

(** A Python [float] is an IEEE 754 binary64 value.  [spec_float] has one
    NaN: the sign and the payload of a NaN are not represented.  The NaN
    results of arithmetic, whose sign IEEE 754 leaves to the
    implementation, are that one value, and a statement about a NaN says
    that the value is a NaN and no more. *)
Definition float64 := spec_float.

Definition float_add : float64 -> float64 -> float64 := SFadd prec emax.
Definition float_sub : float64 -> float64 -> float64 := SFsub prec emax.
Definition float_mul : float64 -> float64 -> float64 := SFmul prec emax.
Definition float_div : float64 -> float64 -> float64 := SFdiv prec emax.

(** [x == 0] for a float [x] and the int literal [0]: the int is converted
    to [0.0] and the two are compared as floats, so both zeros are equal
    to it and a NaN is not. *)
Definition float_eq_zero (x : float64) : bool := SFeqb x (S754_zero false).

(** The exact rational value of a finite float. *)
Definition exact_value (x : float64) : option Q :=
  match x with
  | S754_zero _ => Some 0%Q
  | S754_finite s m e =>
      let n := if s then Z.neg m else Z.pos m in
      Some (if 0 <=? e then inject_Z (n * 2 ^ e)
            else Qmake n (Z.to_pos (2 ^ (- e))))
  | _ => None
  end.

(** ** The Unicode character database

    [float] consults the interpreter's Unicode tables for characters
    outside ASCII.  The tables are data of the interpreter, not of the
    program, and differ between Unicode versions; the development is
    parametric in them. *)
Class UnicodeData := {
  (** [Py_UNICODE_ISSPACE]: the character is Unicode white space. *)
  Py_UNICODE_ISSPACE : codepoint -> bool;
  (** [Py_UNICODE_TODECIMAL]: the decimal digit value of the character,
      negative when it has none. *)
  Py_UNICODE_TODECIMAL : codepoint -> Z
}.

(** An excerpt of the database: the no-break space, the ideographic space,
    the Arabic-Indic digits and the fullwidth digits. *)
Definition ucd_excerpt : UnicodeData := {|
  Py_UNICODE_ISSPACE c := (N.eqb c 160 || N.eqb c 12288)%bool;
  Py_UNICODE_TODECIMAL c :=
    if (1632 <=? c)%N && (c <=? 1641)%N then Z.of_N c - 1632
    else if (65296 <=? c)%N && (c <=? 65305)%N then Z.of_N c - 65296
    else -1
|}.

(** ** Exceptions *)

Inductive exception := ValueError | ZeroDivisionError.

Inductive outcome (A : Type) :=
| Returned (x : A)
| Raised (e : exception).
Arguments Returned {A} x.
Arguments Raised {A} e.

(** ** The builtin [float] on a string *)

Module Float.

(** ASCII character classes of [pyctype.h]. *)
Definition Py_ISSPACE (c : codepoint) : bool :=
  ((9 <=? c)%N && (c <=? 13)%N || N.eqb c 32)%bool.
Definition Py_ISDIGIT (c : codepoint) : bool :=
  ((48 <=? c)%N && (c <=? 57)%N)%bool.
Definition Py_TOLOWER (c : codepoint) : codepoint :=
  if ((65 <=? c)%N && (c <=? 90)%N)%bool then (c + 32)%N else c.

Section Transform.
Context {ucd : UnicodeData}.

(** The loop of [_PyUnicode_TransformDecimalAndSpaceToASCII]: ASCII is
    kept, white space becomes a blank, a decimal digit becomes its ASCII
    digit, and the first other character becomes ['?'] and ends the
    result. *)
Fixpoint transform_loop (s : pystr) : pystr :=
  match s with
  | [] => []
  | ch :: rest =>
      if (ch <? 127)%N then ch :: transform_loop rest
      else if Py_UNICODE_ISSPACE ch then chr " " :: transform_loop rest
      else
        let decimal := Py_UNICODE_TODECIMAL ch in
        if decimal <? 0 then [chr "?"]
        else (chr "0" + Z.to_N decimal)%N :: transform_loop rest
  end.

(** An all-ASCII string is returned as it is. *)
Definition PyUnicode_TransformDecimalAndSpaceToASCII (s : pystr) : pystr :=
  if forallb (fun ch => (ch <? 128)%N) s then s else transform_loop s.
End Transform.

(** The underscore pass of [_Py_string_to_number_with_underscores]: an
    underscore must stand between two digits; [prev] is the previous
    character (NUL at the start).  [None] is the error exit. *)
Fixpoint remove_underscores (prev : codepoint) (s : pystr) : option pystr :=
  match s with
  | [] => if N.eqb prev (chr "_") then None else Some []
  | p :: rest =>
      if N.eqb p (chr "_") then
        if Py_ISDIGIT prev then remove_underscores p rest else None
      else
        if (N.eqb prev (chr "_") && negb (Py_ISDIGIT p))%bool then None
        else option_map (cons p) (remove_underscores p rest)
  end.

Definition Py_string_to_number_with_underscores
    (s : pystr) (innerfunc : pystr -> outcome float64) : outcome float64 :=
  if existsb (N.eqb (chr "_")) s then
    match remove_underscores 0%N s with
    | Some dup => innerfunc dup
    | None => Raised ValueError
    end
  else innerfunc s.

(** *** [strtod] *)

(** An optional sign: [true] for ['-']. *)
Definition parse_sign (s : pystr) : bool * pystr :=
  match s with
  | c :: rest =>
      if N.eqb c (chr "-") then (true, rest)
      else if N.eqb c (chr "+") then (false, rest)
      else (false, s)
  | [] => (false, [])
  end.

(** The longest prefix of ASCII digits, as digit values, and the rest. *)
Fixpoint span_digits (s : pystr) : list Z * pystr :=
  match s with
  | c :: rest =>
      if Py_ISDIGIT c then
        let (ds, r) := span_digits rest in (Z.of_N c - 48 :: ds, r)
      else ([], s)
  | [] => ([], [])
  end.

Fixpoint drop_zeros (ds : list Z) : list Z :=
  match ds with
  | 0 :: ds' => drop_zeros ds'
  | _ => ds
  end.

Definition digits_value (ds : list Z) : Z :=
  fold_left (fun acc d => 10 * acc + d) ds 0.

Definition MAX_ABS_EXP : Z := 1100000000.
Definition MAX_DIGITS : Z := 1000000000.

(** The binary64 value nearest to [(-1)^sign * m * 10^e10], ties to even;
    out of range it is an infinity or a zero of that sign. *)
Definition round_decimal (sign : bool) (m e10 : Z) : float64 :=
  match m with
  | Z.pos p =>
      if 0 <=? e10 then
        binary_round prec emax sign (p * Z.to_pos (10 ^ e10)) 0
      else
        let '(q, e2, loc) :=
          SFdiv_core_binary prec emax (Z.pos p) 0 (10 ^ (- e10)) 0 in
        binary_round_aux prec emax sign q e2 loc
  | _ => S754_zero sign
  end.

(** [_Py_dg_strtod]: sign, digits with an optional point, an optional
    exponent.  The result is the value and the unparsed rest; [None] is a
    parse error (nothing consumed).  An ['e'] that no digit follows is not
    consumed. *)
Definition Py_dg_strtod (s00 : pystr) : option (float64 * pystr) :=
  let (sign, s1) := parse_sign s00 in
  let (ip, s2) := span_digits s1 in
  let (fp, s3) :=
    match s2 with
    | c :: rest => if N.eqb c (chr ".") then span_digits rest else ([], s2)
    | [] => ([], s2)
    end in
  let ndigits := Z.of_nat (List.length (drop_zeros (ip ++ fp))) in
  let fraclen := Z.of_nat (List.length fp) in
  match ip ++ fp with
  | [] => None
  | _ :: _ =>
      if (MAX_DIGITS <? ndigits) || (MAX_DIGITS <? fraclen) then None
      else
        let (e, s4) :=
          match s3 with
          | c :: rest =>
              if (N.eqb c (chr "e") || N.eqb c (chr "E"))%bool then
                let (esign, r1) := parse_sign rest in
                let (ed, r2) := span_digits r1 in
                match ed with
                | [] => (0, s3)
                | _ :: _ =>
                    let abs_exp := digits_value ed in
                    let e :=
                      if (9 <? Z.of_nat (List.length (drop_zeros ed)))
                         || (MAX_ABS_EXP <? abs_exp)
                      then MAX_ABS_EXP else abs_exp in
                    (if esign then - e else e, r2)
                end
              else (0, s3)
          | [] => (0, s3)
          end in
        Some (round_decimal sign (digits_value (ip ++ fp)) (e - fraclen), s4)
  end.

(** [case_insensitive_match]: the rest after the lower-case word [t] when
    [s] starts with it in any case. *)
Fixpoint case_insensitive_match (s t : pystr) {struct t} : option pystr :=
  match t with
  | [] => Some s
  | d :: t' =>
      match s with
      | c :: s' =>
          if N.eqb (Py_TOLOWER c) d then case_insensitive_match s' t'
          else None
      | [] => None
      end
  end.

(** [_Py_parse_inf_or_nan]: an optional sign and "inf", "infinity" or
    "nan" in any case.  For "nan" the sign is set on the NaN that CPython
    returns ("-nan" has the sign bit set); it is lost here, where there is
    one NaN. *)
Definition Py_parse_inf_or_nan (p : pystr) : option (float64 * pystr) :=
  let (negate, s) := parse_sign p in
  match case_insensitive_match s (str "inf") with
  | Some s1 =>
      match case_insensitive_match s1 (str "inity") with
      | Some s2 => Some (S754_infinity negate, s2)
      | None => Some (S754_infinity negate, s1)
      end
  | None =>
      match case_insensitive_match s (str "nan") with
      | Some s1 => Some (S754_nan, s1)
      | None => None
      end
  end.

Definition PyOS_ascii_strtod (nptr : pystr) : option (float64 * pystr) :=
  match Py_dg_strtod nptr with
  | Some r => Some r
  | None => Py_parse_inf_or_nan nptr
  end.

(** [PyOS_string_to_double] with an end pointer and no overflow exception:
    no conversion is a [ValueError]; an overflow is the infinity [strtod]
    returned. *)
Definition PyOS_string_to_double (s : pystr) : outcome (float64 * pystr) :=
  match PyOS_ascii_strtod s with
  | Some r => Returned r
  | None => Raised ValueError
  end.

Fixpoint lstrip (s : pystr) : pystr :=
  match s with
  | c :: rest => if Py_ISSPACE c then lstrip rest else s
  | [] => []
  end.

Fixpoint drop_trailing_space (s : pystr) : pystr :=
  match s with
  | [] => []
  | c :: rest =>
      match drop_trailing_space rest with
      | [] => if Py_ISSPACE c then [] else [c]
      | r => c :: r
      end
  end.

(** Trailing white space is dropped while more than one character is
    left. *)
Definition rstrip (s : pystr) : pystr :=
  match s with
  | [] => []
  | c :: rest => c :: drop_trailing_space rest
  end.

(** [float_from_string_inner]: strip, convert, and require that the
    conversion consumed everything. *)
Definition float_from_string_inner (s : pystr) : outcome float64 :=
  match lstrip s with
  | [] => Raised ValueError
  | (_ :: _) as s1 =>
      match PyOS_string_to_double (rstrip s1) with
      | Returned (x, []) => Returned x
      | Returned (_, _ :: _) => Raised ValueError
      | Raised e => Raised e
      end
  end.

(** [PyFloat_FromString] on a [str]. *)
Definition PyFloat_FromString {ucd : UnicodeData} (v : pystr) : outcome float64 :=
  Py_string_to_number_with_underscores
    (PyUnicode_TransformDecimalAndSpaceToASCII v)
    float_from_string_inner.

End Float.

(** ** The window state and the computations over it *)

(** What [StringVar.set] was given: [calculate] passes a float or a
    string. *)
Inductive tk_value :=
| TkFloat (x : float64)
| TkString (s : pystr).

(** A float operation that was carried out, with its operands. *)
Inductive arith :=
| FloatAdd (a b : float64)
| FloatSub (a b : float64)
| FloatMul (a b : float64)
| FloatTrueDiv (a b : float64).

(** The part of the window that [calculate] reads and writes: the texts of
    the two [Entry] widgets and the [StringVar] behind the result label.
    [performed] is a ghost field: the float operations carried out so
    far, most recent first. *)
Record window := {
  entry_a : pystr;
  entry_b : pystr;
  result : tk_value;
  performed : list arith
}.

Definition set_result (v : tk_value) (w : window) : window :=
  {| entry_a := entry_a w; entry_b := entry_b w;
     result := v; performed := performed w |}.

Definition log (op : arith) (w : window) : window :=
  {| entry_a := entry_a w; entry_b := entry_b w;
     result := result w; performed := op :: performed w |}.

(** A statement or expression: it runs on a window, returns or raises, and
    leaves a window. *)
Definition Py (A : Type) : Type := window -> outcome A * window.

Definition ret {A} (x : A) : Py A := fun w => (Returned x, w).
Definition raise {A} (e : exception) : Py A := fun w => (Raised e, w).
Definition bind {A B} (c : Py A) (k : A -> Py B) : Py B :=
  fun w =>
    match c w with
    | (Returned x, w') => k x w'
    | (Raised e, w') => (Raised e, w')
    end.

Notation "x <- c ;; k" := (bind c (fun x => k))
  (at level 61, c at next level, right associativity).

Definition exception_eqb (e1 e2 : exception) : bool :=
  match e1, e2 with
  | ValueError, ValueError => true
  | ZeroDivisionError, ZeroDivisionError => true
  | _, _ => false
  end.

(** [try: body except exc: handler]: the handler runs on the window the
    body left when it raised [exc]; any other exception passes through. *)
Definition try_except {A} (body : Py A) (exc : exception) (handler : Py A)
  : Py A :=
  fun w =>
    match body w with
    | (Returned x, w') => (Returned x, w')
    | (Raised e, w') =>
        if exception_eqb e exc then handler w' else (Raised e, w')
    end.

(** *** Primitives *)

Definition Entry_get (entry : window -> pystr) : Py pystr :=
  fun w => (Returned (entry w), w).

Definition StringVar_set (v : tk_value) : Py unit :=
  fun w => (Returned tt, set_result v w).

(** [float(s)] *)
Definition float {ucd : UnicodeData} (s : pystr) : Py float64 :=
  fun w => (Float.PyFloat_FromString s, w).

(** [a + b], [a - b], [a * b] on floats never raise. *)
Definition add (a b : float64) : Py float64 :=
  fun w => (Returned (float_add a b), log (FloatAdd a b) w).
Definition sub (a b : float64) : Py float64 :=
  fun w => (Returned (float_sub a b), log (FloatSub a b) w).
Definition mul (a b : float64) : Py float64 :=
  fun w => (Returned (float_mul a b), log (FloatMul a b) w).

(** [a / b] on floats raises [ZeroDivisionError] for a zero divisor. *)
Definition truediv (a b : float64) : Py float64 :=
  fun w =>
    if float_eq_zero b then (Raised ZeroDivisionError, w)
    else (Returned (float_div a b), log (FloatTrueDiv a b) w).

(** ** The program *)

(** The three messages: "Fehler: ÷0", "Unbekannter Operator" and
    "Ungültige Eingabe" (U+00F7 is the division sign, U+00FC the u with
    diaeresis). *)
Definition MSG_DIV0 : pystr := str "Fehler: " ++ [247%N] ++ str "0".
Definition MSG_UNKNOWN : pystr := str "Unbekannter Operator".
Definition MSG_INVALID : pystr := str "Ung" ++ [252%N] ++ str "ltige Eingabe".

Declare Scope py_scope.
Delimit Scope py_scope with py.
Notation "s == t" := (pystr_eqb s (str t))
  (at level 70, no associativity) : py_scope.

Section Program.
Context {ucd : UnicodeData}.

(** The body of the [try] statement of [calculate]. *)
Definition calculate_body (op : pystr) : Py unit :=
  ta <- Entry_get entry_a ;;
  a <- float (replace (chr ",") (chr ".") ta) ;;
  tb <- Entry_get entry_b ;;
  b <- float (replace (chr ",") (chr ".") tb) ;;
  res <- (if (op == "+")%py then x <- add a b ;; ret (TkFloat x)
          else if (op == "-")%py then x <- sub a b ;; ret (TkFloat x)
          else if (op == "*")%py then x <- mul a b ;; ret (TkFloat x)
          else if (op == "/")%py then
            if float_eq_zero b then ret (TkString MSG_DIV0)
            else x <- truediv a b ;; ret (TkFloat x)
          else ret (TkString MSG_UNKNOWN)) ;;
  StringVar_set res.

(** [calculate(op)] *)
Definition calculate (op : pystr) : Py unit :=
  try_except (calculate_body op) ValueError
    (StringVar_set (TkString MSG_INVALID)).
End Program.

(** ** The evaluator as the specification sees it *)

Inductive Operator := Add | Subtract | Multiply | Divide.

(** The operator string each of the four buttons hands to [calculate]. *)
Definition op_symbol (o : Operator) : pystr :=
  match o with
  | Add => str "+"
  | Subtract => str "-"
  | Multiply => str "*"
  | Divide => str "/"
  end.

Inductive EvaluationResult :=
| Number (value : float64)
| DivisionByZero
| InvalidInput.

(** What the display holds for each result. *)
Definition render (r : EvaluationResult) : tk_value :=
  match r with
  | Number x => TkFloat x
  | DivisionByZero => TkString MSG_DIV0
  | InvalidInput => TkString MSG_INVALID
  end.

(** The result a display content stands for, if any. *)
Definition classify (v : tk_value) : option EvaluationResult :=
  match v with
  | TkFloat x => Some (Number x)
  | TkString s =>
      if pystr_eqb s MSG_DIV0 then Some DivisionByZero
      else if pystr_eqb s MSG_INVALID then Some InvalidInput
      else None
  end.

(** A window with the given entry texts, an empty display and nothing
    computed yet. *)
Definition fresh (a b : pystr) : window :=
  {| entry_a := a; entry_b := b; result := TkString []; performed := [] |}.

(** The operator's button is pressed on a window: [calculate] runs and
    the result is read off the display.  [None] stands for an exception
    that left [calculate] and for a display that is none of the three
    results. *)
Definition press {ucd : UnicodeData} (operator : Operator) (w : window)
  : option EvaluationResult * window :=
  match calculate (op_symbol operator) w with
  | (Returned _, w') => (classify (result w'), w')
  | (Raised _, w') => (None, w')
  end.

(** One evaluation: the operands are the entry texts of a fresh window
    and the operator's button is pressed. *)
Definition evaluate {ucd : UnicodeData} (operandA operandB : pystr)
    (operator : Operator) : option EvaluationResult :=
  fst (press operator (fresh operandA operandB)).

(** [parse s] is the number an operand text stands for: comma
    normalisation followed by [float]. *)
Definition parse {ucd : UnicodeData} (s : pystr) : outcome float64 :=
  Float.PyFloat_FromString (replace (chr ",") (chr ".") s).

(** The binary64 value of [m * 2^e] when that number is representable,
    for instance [dyadic 5 (-1)] for 2.5. *)
Definition dyadic (m e : Z) : float64 := binary_normalize prec emax m e false.

(** The result the dispatch produces on two parsed operands. *)
Definition dispatch (o : Operator) (a b : float64) : EvaluationResult :=
  match o with
  | Add => Number (float_add a b)
  | Subtract => Number (float_sub a b)
  | Multiply => Number (float_mul a b)
  | Divide =>
      if float_eq_zero b then DivisionByZero else Number (float_div a b)
  end.

(** No period and no question mark. *)
Definition plain (p : pystr) : Prop :=
  count (chr ".") p = 0%nat /\ ~ In (chr "?") p.

(** At most one period and no question mark. *)
Definition one_point (p : pystr) : Prop :=
  (count (chr ".") p <= 1)%nat /\ ~ In (chr "?") p.

(** [x] is a binary64 value nearest to the rational [q]: no other
    binary64 value is closer. *)
Definition nearest_float (q : Q) (x : float64) : Prop :=
  valid_binary prec emax x = true /\
  exists v, exact_value x = Some v /\
    forall y vy, valid_binary prec emax y = true ->
      exact_value y = Some vy ->
      (Qabs (v - q) <= Qabs (vy - q))%Q.

(** ** The rest of the program: [clear], [make_btn], the bindings *)

(** The widget that holds the keyboard focus: one of the two entries or
    any other widget of the window. *)
Inductive widget := entry_a_widget | entry_b_widget | other_widget.

(** The state of the shell around [calculate]: the window and the focus. *)
Record shell := {
  win : window;
  focus : widget
}.

(** A statement over the whole application state. *)
Definition Gui (A : Type) : Type := shell -> outcome A * shell.

Definition on_window {A} (c : Py A) : Gui A :=
  fun s =>
    let (r, w') := c (win s) in (r, {| win := w'; focus := focus s |}).

Definition gui_seq (c k : Gui unit) : Gui unit :=
  fun s =>
    match c s with
    | (Returned _, s') => k s'
    | (Raised e, s') => (Raised e, s')
    end.

(** An index into the text of an [Entry]: a position or [tk.END]. *)
Inductive index := At (n : nat) | END.

Definition index_in (i : index) (text : pystr) : nat :=
  match i with
  | At n => Nat.min n (List.length text)
  | END => List.length text
  end.

(** [Entry.delete(first, last)] removes the characters from [first] up
    to, not including, [last]. *)
Definition delete_range (first last : index) (text : pystr) : pystr :=
  let f := index_in first text in
  let l := index_in last text in
  if (f <? l)%nat then firstn f text ++ skipn l text else text.

Definition entry_a_delete (first last : index) : Py unit :=
  fun w =>
    (Returned tt,
     {| entry_a := delete_range first last (entry_a w);
        entry_b := entry_b w; result := result w;
        performed := performed w |}).

Definition entry_b_delete (first last : index) : Py unit :=
  fun w =>
    (Returned tt,
     {| entry_a := entry_a w;
        entry_b := delete_range first last (entry_b w);
        result := result w; performed := performed w |}).

Definition focus_set (target : widget) : Gui unit :=
  fun s => (Returned tt, {| win := win s; focus := target |}).

(** [clear()] *)
Definition clear : Gui unit :=
  gui_seq (on_window (entry_a_delete (At 0) END))
    (gui_seq (on_window (entry_b_delete (At 0) END))
       (gui_seq (on_window (StringVar_set (TkString [])))
          (focus_set entry_a_widget))).

(** What a button runs when it is pressed. *)
Inductive command :=
| Calculate (op : pystr)
| Clear.

(** A button: its label, its command and its colour.  The layout options
    (font, width, height, border, padding) are constants of the source
    and do not enter the behaviour. *)
Record button := {
  text : pystr;
  command_of : command;
  bg : option pystr
}.

(** The truth value of an optional string: [None] and the empty string
    are false. *)
Definition truthy (x : option pystr) : bool :=
  match x with
  | Some (_ :: _) => true
  | _ => false
  end.

(** [make_btn(text, op, bg)]: [calculate(op)] if [op] is true, else
    [clear]; the colour is [bg] if it is true, else none. *)
Definition make_btn (label : pystr) (op bg : option pystr) : button :=
  {| text := label;
     command_of :=
       match op with
       | Some o => if truthy op then Calculate o else Clear
       | None => Clear
       end;
     bg := if truthy bg then bg else None |}.

Inductive button_id :=
| btn_plus | btn_minus | btn_times | btn_divide | btn_clear.

(** The five buttons of the window: the four made by [make_btn] (the
    labels of the last two are the multiplication sign U+00D7 and the
    division sign U+00F7) and the clear button. *)
Definition button_of (b : button_id) : button :=
  match b with
  | btn_plus => make_btn (str "+") (Some (str "+")) (Some (str "#d9ead3"))
  | btn_minus => make_btn (str "-") (Some (str "-")) (Some (str "#fce5cd"))
  | btn_times => make_btn [215%N] (Some (str "*")) (Some (str "#cfe2f3"))
  | btn_divide => make_btn [247%N] (Some (str "/")) (Some (str "#ead1dc"))
  | btn_clear =>
      {| text := str "Clear (Esc)"; command_of := Clear; bg := None |}
  end.

(** The button of an operator. *)
Definition operator_button (o : Operator) : button_id :=
  match o with
  | Add => btn_plus
  | Subtract => btn_minus
  | Multiply => btn_times
  | Divide => btn_divide
  end.

Inductive entry_id := in_entry_a | in_entry_b.

(** What happens in the window: a button's command is invoked, the
    binding of the Return or of the Escape key fires, the user changes the
    text of an entry, the focus moves. *)
Inductive event :=
| Invoke (b : button_id)
| Key_Return
| Key_Escape
| Type_text (e : entry_id) (new_text : pystr)
| Focus_on (target : widget).

Definition set_entry (e : entry_id) (new_text : pystr) (w : window)
  : window :=
  match e with
  | in_entry_a =>
      {| entry_a := new_text; entry_b := entry_b w;
         result := result w; performed := performed w |}
  | in_entry_b =>
      {| entry_a := entry_a w; entry_b := new_text;
         result := result w; performed := performed w |}
  end.

Section Shell.
Context {ucd : UnicodeData}.

Definition run_command (c : command) : Gui unit :=
  match c with
  | Calculate op => on_window (calculate op)
  | Clear => clear
  end.

(** The callback an event runs.  Return is bound to [calculate("+")] and
    Escape to [clear()]. *)
Definition handle (e : event) : Gui unit :=
  match e with
  | Invoke b => run_command (command_of (button_of b))
  | Key_Return => on_window (calculate (str "+"))
  | Key_Escape => clear
  | Type_text e new_text =>
      fun s =>
        (Returned tt,
         {| win := set_entry e new_text (win s); focus := focus s |})
  | Focus_on target => focus_set target
  end.

(** The event loop on a list of events: an exception that leaves a
    callback is reported and the loop goes on.  The result is the list of
    reported exceptions and the final state. *)
Fixpoint mainloop (es : list event) (s : shell) : list exception * shell :=
  match es with
  | [] => ([], s)
  | e :: es' =>
      match handle e s with
      | (Returned _, s') => mainloop es' s'
      | (Raised x, s') =>
          let (xs, s'') := mainloop es' s' in (x :: xs, s'')
      end
  end.
End Shell.

(** The window when the event loop starts: empty entries, an empty
    display, the focus in the first entry. *)
Definition startup : shell :=
  {| win := fresh [] []; focus := entry_a_widget |}.

(** An event that runs [calculate], and one that runs [clear]. *)
Definition runs_calculate (e : event) : bool :=
  match e with
  | Invoke b =>
      match command_of (button_of b) with
      | Calculate _ => true
      | Clear => false
      end
  | Key_Return => true
  | _ => false
  end.

Definition runs_clear (e : event) : bool :=
  match e with
  | Invoke b =>
      match command_of (button_of b) with
      | Calculate _ => false
      | Clear => true
      end
  | Key_Escape => true
  | _ => false
  end.

(** No [calculate] has run since the last [clear], or since the start. *)
Definition cleared (es : list event) : bool :=
  fold_left
    (fun c e => if runs_clear e then true
                else if runs_calculate e then false else c)
    es true.

(** A float that is a NaN, and a result that is the number NaN. *)
Definition is_nan (x : float64) : bool :=
  match x with
  | S754_nan => true
  | _ => false
  end.

Definition nan_result (r : option EvaluationResult) : Prop :=
  exists x, r = Some (Number x) /\ is_nan x = true.

(** A float that is a zero or a finite number. *)
Definition is_finite (x : float64) : bool :=
  match x with
  | S754_zero _ | S754_finite _ _ _ => true
  | _ => false
  end.

(** The display holds nothing, or one of the three results. *)
Definition display_ok (s : shell) : Prop :=
  result (win s) = TkString [] \/ exists r, result (win s) = render r.

(** A text of blanks only: space, tab, line feed, vertical tab, form feed
    and carriage return.  The empty text is blank. *)
Definition blank (s : pystr) : Prop := forallb Float.Py_ISSPACE s = true.

(** * Properties *)

(** ** What [float] can raise *)

Lemma float_from_string_inner_raises (u : pystr) (e : exception) :
  Float.float_from_string_inner u = Raised e -> e = ValueError.
Proof.
  unfold Float.float_from_string_inner, Float.PyOS_string_to_double.
  destruct (Float.lstrip u) as [|c u']; [congruence|].
  destruct (Float.PyOS_ascii_strtod (Float.rstrip (c :: u')))
    as [[x [|d r]]|]; congruence.
Qed.

Lemma PyFloat_FromString_raises {ucd : UnicodeData} (s : pystr) (e : exception) :
  Float.PyFloat_FromString s = Raised e -> e = ValueError.
Proof.
  unfold Float.PyFloat_FromString, Float.Py_string_to_number_with_underscores.
  destruct (existsb _ _); [|apply float_from_string_inner_raises].
  destruct (Float.remove_underscores _ _);
    [apply float_from_string_inner_raises | congruence].
Qed.

Lemma parse_raises {ucd : UnicodeData} (s : pystr) (e : exception) :
  parse s = Raised e -> e = ValueError.
Proof. apply PyFloat_FromString_raises. Qed.

(** ** The equations of [calculate] *)

Section Equations.
Context {ucd : UnicodeData}.
Variable w : window.

(** An operand that [float] rejects: the handler writes the message and
    nothing else happens. *)
Lemma calculate_invalid_a (op : pystr) (e : exception) :
  parse (entry_a w) = Raised e ->
  calculate op w = (Returned tt, set_result (TkString MSG_INVALID) w).
Proof.
  intros H. pose proof (parse_raises _ _ H) as ->.
  unfold calculate, try_except, calculate_body, bind, Entry_get, float.
  fold (parse (entry_a w)). rewrite H. reflexivity.
Qed.

Lemma calculate_invalid_b (op : pystr) (a : float64) (e : exception) :
  parse (entry_a w) = Returned a ->
  parse (entry_b w) = Raised e ->
  calculate op w = (Returned tt, set_result (TkString MSG_INVALID) w).
Proof.
  intros Ha H. pose proof (parse_raises _ _ H) as ->.
  unfold calculate, try_except, calculate_body, bind, Entry_get, float.
  fold (parse (entry_a w)). rewrite Ha.
  fold (parse (entry_b w)). rewrite H. reflexivity.
Qed.

Lemma calculate_invalid (op : pystr) :
  (exists e, parse (entry_a w) = Raised e) \/
  (exists e, parse (entry_b w) = Raised e) ->
  calculate op w = (Returned tt, set_result (TkString MSG_INVALID) w).
Proof.
  intros [[e H] | [e H]].
  - exact (calculate_invalid_a op e H).
  - destruct (parse (entry_a w)) as [a|e'] eqn:Ha.
    + exact (calculate_invalid_b op a e Ha H).
    + exact (calculate_invalid_a op e' Ha).
Qed.

Variables a b : float64.
Hypothesis Ha : parse (entry_a w) = Returned a.
Hypothesis Hb : parse (entry_b w) = Returned b.

Ltac run_body :=
  unfold calculate, try_except, calculate_body, bind, Entry_get, float;
  fold (parse (entry_a w)); rewrite Ha;
  fold (parse (entry_b w)); rewrite Hb.

Lemma calculate_add :
  calculate (str "+") w =
  (Returned tt, set_result (TkFloat (float_add a b)) (log (FloatAdd a b) w)).
Proof. run_body. reflexivity. Qed.

Lemma calculate_sub :
  calculate (str "-") w =
  (Returned tt, set_result (TkFloat (float_sub a b)) (log (FloatSub a b) w)).
Proof. run_body. reflexivity. Qed.

Lemma calculate_mul :
  calculate (str "*") w =
  (Returned tt, set_result (TkFloat (float_mul a b)) (log (FloatMul a b) w)).
Proof. run_body. reflexivity. Qed.

Lemma calculate_div :
  calculate (str "/") w =
  (Returned tt,
   if float_eq_zero b then set_result (TkString MSG_DIV0) w
   else set_result (TkFloat (float_div a b)) (log (FloatTrueDiv a b) w)).
Proof.
  run_body. cbn -[MSG_DIV0 float_eq_zero]. unfold truediv, ret.
  destruct (float_eq_zero b); reflexivity.
Qed.

(** Any other operator string reaches the [else] branch. *)
Lemma calculate_other (op : pystr) :
  (forall o, op <> op_symbol o) ->
  calculate op w = (Returned tt, set_result (TkString MSG_UNKNOWN) w).
Proof.
  intros Hop. run_body.
  assert (neq : forall o, pystr_eqb op (op_symbol o) = false).
  { intros o. destruct (pystr_eqb op (op_symbol o)) eqn:E; [|reflexivity].
    exfalso. apply (Hop o). clear -E.
    revert E. generalize (op_symbol o). induction op as [|c s IH];
      intros [|d t]; cbn; try discriminate; [reflexivity|].
    intros E. apply andb_prop in E as [E1 E2].
    apply N.eqb_eq in E1. f_equal; auto. }
  pose proof (neq Add) as E1. pose proof (neq Subtract) as E2.
  pose proof (neq Multiply) as E3. pose proof (neq Divide) as E4.
  cbn [op_symbol] in E1, E2, E3, E4.
  rewrite E1, E2, E3, E4. reflexivity.
Qed.
End Equations.

(** ** The evaluator on operand texts *)

Lemma classify_render (r : EvaluationResult) : classify (render r) = Some r.
Proof. destruct r; reflexivity. Qed.

Lemma render_not_unknown (r : EvaluationResult) :
  render r <> TkString MSG_UNKNOWN.
Proof. destruct r; discriminate. Qed.

Lemma float_eq_zero_iff (x : float64) :
  float_eq_zero x = true <-> exists s, x = S754_zero s.
Proof.
  split.
  - destruct x as [s|[|]| |[|] m e]; cbn; try discriminate; eauto.
  - intros [s ->]. reflexivity.
Qed.

Section Evaluate.
Context {ucd : UnicodeData}.

(** On a window whose operands parse, [calculate] returns and displays
    the dispatched result. *)
Lemma calculate_valid (o : Operator) (w : window) (a b : float64) :
  parse (entry_a w) = Returned a ->
  parse (entry_b w) = Returned b ->
  exists l,
    calculate (op_symbol o) w =
    (Returned tt,
     {| entry_a := entry_a w; entry_b := entry_b w;
        result := render (dispatch o a b); performed := l |}).
Proof.
  intros Ha Hb. destruct o; cbn [op_symbol dispatch].
  - rewrite (calculate_add w a b Ha Hb). eexists. reflexivity.
  - rewrite (calculate_sub w a b Ha Hb). eexists. reflexivity.
  - rewrite (calculate_mul w a b Ha Hb). eexists. reflexivity.
  - rewrite (calculate_div w a b Ha Hb).
    destruct (float_eq_zero b); eexists; reflexivity.
Qed.

(** Whatever the window holds, [calculate] on an operator's symbol returns
    and displays one of the three results. *)
Lemma calculate_returns_result (o : Operator) (w : window) :
  exists (r : EvaluationResult) (l : list arith),
    calculate (op_symbol o) w =
    (Returned tt,
     {| entry_a := entry_a w; entry_b := entry_b w;
        result := render r; performed := l |}).
Proof.
  destruct (parse (entry_a w)) as [a|ea] eqn:Ha.
  - destruct (parse (entry_b w)) as [b|eb] eqn:Hb.
    + destruct (calculate_valid o w a b Ha Hb) as [l E].
      exists (dispatch o a b), l. exact E.
    + exists InvalidInput, (performed w).
      exact (calculate_invalid_b w _ a eb Ha Hb).
  - exists InvalidInput, (performed w).
    exact (calculate_invalid_a w _ ea Ha).
Qed.

Lemma evaluate_valid (o : Operator) (sa sb : pystr) (a b : float64) :
  parse sa = Returned a ->
  parse sb = Returned b ->
  evaluate sa sb o = Some (dispatch o a b).
Proof.
  intros Ha Hb. unfold evaluate, press.
  destruct (calculate_valid o (fresh sa sb) a b Ha Hb) as [l ->].
  cbn [result fst]. apply classify_render.
Qed.

Lemma evaluate_invalid (o : Operator) (sa sb : pystr) :
  (exists e, parse sa = Raised e) \/ (exists e, parse sb = Raised e) ->
  evaluate sa sb o = Some InvalidInput.
Proof.
  intros H. unfold evaluate, press.
  rewrite (calculate_invalid (fresh sa sb) (op_symbol o) H). reflexivity.
Qed.

(** [calculate] reads the window only through the two entry texts. *)
Lemma calculate_reads_entries (op : pystr) (w1 w2 : window) :
  entry_a w1 = entry_a w2 ->
  entry_b w1 = entry_b w2 ->
  fst (calculate op w1) = fst (calculate op w2) /\
  result (snd (calculate op w1)) = result (snd (calculate op w2)).
Proof.
  intros Ea Eb.
  unfold calculate, try_except, calculate_body, bind, Entry_get, float.
  rewrite Ea, Eb.
  destruct (Float.PyFloat_FromString
              (replace (chr ",") (chr ".") (entry_a w2))) as [a|e] eqn:Ha.
  2:{ apply PyFloat_FromString_raises in Ha as ->. split; reflexivity. }
  destruct (Float.PyFloat_FromString
              (replace (chr ",") (chr ".") (entry_b w2))) as [b|e] eqn:Hb.
  2:{ apply PyFloat_FromString_raises in Hb as ->. split; reflexivity. }
  destruct (pystr_eqb op (str "+")); [split; reflexivity|].
  destruct (pystr_eqb op (str "-")); [split; reflexivity|].
  destruct (pystr_eqb op (str "*")); [split; reflexivity|].
  destruct (pystr_eqb op (str "/")); [|split; reflexivity].
  unfold truediv, ret.
  destruct (float_eq_zero b); split; reflexivity.
Qed.

(** [calculate] leaves the entry texts as they are. *)
Lemma calculate_keeps_entries (op : pystr) (w : window) :
  entry_a (snd (calculate op w)) = entry_a w /\
  entry_b (snd (calculate op w)) = entry_b w.
Proof.
  unfold calculate, try_except, calculate_body, bind, Entry_get, float.
  destruct (Float.PyFloat_FromString
              (replace (chr ",") (chr ".") (entry_a w))) as [a|[|]];
    [|split; reflexivity|split; reflexivity].
  destruct (Float.PyFloat_FromString
              (replace (chr ",") (chr ".") (entry_b w))) as [b|[|]];
    [|split; reflexivity|split; reflexivity].
  destruct (pystr_eqb op (str "+")); [split; reflexivity|].
  destruct (pystr_eqb op (str "-")); [split; reflexivity|].
  destruct (pystr_eqb op (str "*")); [split; reflexivity|].
  destruct (pystr_eqb op (str "/")); [|split; reflexivity].
  unfold truediv, ret.
  destruct (float_eq_zero b); split; reflexivity.
Qed.
End Evaluate.

(** ** The shape of a text that [float] accepts

    A text that converts holds at most one period: [strtod] consumes at
    most one, the words for infinity and NaN hold none, and everything
    must be consumed. *)

Lemma count_app (c : codepoint) (p q : pystr) :
  count c (p ++ q) = (count c p + count c q)%nat.
Proof. unfold count. rewrite filter_app, length_app. reflexivity. Qed.

Lemma count_cons (c d : codepoint) (p : pystr) :
  count c (d :: p) = ((if N.eqb c d then 1 else 0) + count c p)%nat.
Proof. unfold count. cbn. destruct (N.eqb c d); reflexivity. Qed.

Lemma plain_nil : plain [].
Proof. split; [reflexivity | intros []]. Qed.

Lemma plain_cons (c : codepoint) (p : pystr) :
  c <> chr "." -> c <> chr "?" -> plain p -> plain (c :: p).
Proof.
  intros Hd Hq [Hc Hn]. split.
  - rewrite count_cons, Hc.
    destruct (N.eqb_spec (chr ".") c) as [E|E]; [congruence | reflexivity].
  - intros [E|E]; [congruence | contradiction].
Qed.

Lemma plain_app (p q : pystr) : plain p -> plain q -> plain (p ++ q).
Proof.
  intros [Hp Np] [Hq Nq]. split.
  - rewrite count_app, Hp, Hq. reflexivity.
  - intros H. apply in_app_or in H as [H|H]; contradiction.
Qed.

Lemma plain_one_point (p : pystr) : plain p -> one_point p.
Proof. intros [H N]. split; [rewrite H; lia | exact N]. Qed.

Lemma one_point_app_plain (p q : pystr) :
  one_point p -> plain q -> one_point (p ++ q).
Proof.
  intros [Hp Np] [Hq Nq]. split.
  - rewrite count_app, Hq. lia.
  - intros H. apply in_app_or in H as [H|H]; contradiction.
Qed.

Lemma plain_app_one_point (p q : pystr) :
  plain p -> one_point q -> one_point (p ++ q).
Proof.
  intros [Hp Np] [Hq Nq]. split.
  - rewrite count_app, Hp. lia.
  - intros H. apply in_app_or in H as [H|H]; contradiction.
Qed.

Lemma digit_plain (c : codepoint) :
  Float.Py_ISDIGIT c = true -> c <> chr "." /\ c <> chr "?".
Proof.
  unfold Float.Py_ISDIGIT. intros H. apply andb_prop in H as [H1 H2].
  apply N.leb_le in H1. apply N.leb_le in H2.
  change (chr ".") with 46%N. change (chr "?") with 63%N. lia.
Qed.

Lemma space_plain (c : codepoint) :
  Float.Py_ISSPACE c = true -> c <> chr "." /\ c <> chr "?".
Proof.
  unfold Float.Py_ISSPACE. intros H.
  change (chr ".") with 46%N. change (chr "?") with 63%N.
  apply orb_prop in H as [H|H].
  - apply andb_prop in H as [H1 H2].
    apply N.leb_le in H1. apply N.leb_le in H2. lia.
  - apply N.eqb_eq in H. lia.
Qed.

Lemma span_digits_split (s : pystr) :
  forall ds r, Float.span_digits s = (ds, r) ->
  exists p, s = p ++ r /\ plain p.
Proof.
  induction s as [|c s IH]; cbn; intros ds r H.
  - inversion H. exists []. split; [reflexivity | apply plain_nil].
  - destruct (Float.Py_ISDIGIT c) eqn:D.
    + destruct (Float.span_digits s) as [ds' r'] eqn:E. inversion H; subst.
      destruct (IH ds' r eq_refl) as [p [-> Hp]].
      exists (c :: p). split; [reflexivity|].
      destruct (digit_plain c D). apply plain_cons; assumption.
    + inversion H. exists []. split; [reflexivity | apply plain_nil].
Qed.

Lemma parse_sign_split (s : pystr) :
  forall b r, Float.parse_sign s = (b, r) ->
  exists p, s = p ++ r /\ plain p.
Proof.
  destruct s as [|c s]; unfold Float.parse_sign; intros b r H.
  - inversion H. exists []. split; [reflexivity | apply plain_nil].
  - destruct (N.eqb_spec c (chr "-")) as [E|E].
    + inversion H; subst. exists [chr "-"]. split; [reflexivity|].
      apply plain_cons; [discriminate | discriminate | apply plain_nil].
    + destruct (N.eqb_spec c (chr "+")) as [E'|E'].
      * inversion H; subst. exists [chr "+"]. split; [reflexivity|].
        apply plain_cons; [discriminate | discriminate | apply plain_nil].
      * inversion H. exists []. split; [reflexivity | apply plain_nil].
Qed.

(** A letter or its capital is neither a period nor a question mark. *)
Lemma tolower_plain (c d : codepoint) :
  Float.Py_TOLOWER c = d -> d <> chr "." -> d <> chr "?" ->
  c <> chr "." /\ c <> chr "?".
Proof.
  unfold Float.Py_TOLOWER.
  change (chr ".") with 46%N. change (chr "?") with 63%N.
  destruct ((65 <=? c)%N && (c <=? 90)%N)%bool eqn:U.
  - apply andb_prop in U as [H1 H2].
    apply N.leb_le in H1. apply N.leb_le in H2. intros; lia.
  - intros <-. auto.
Qed.

Lemma case_insensitive_match_split (t : pystr) :
  plain t ->
  forall s r, Float.case_insensitive_match s t = Some r ->
  exists p, s = p ++ r /\ plain p.
Proof.
  induction t as [|d t IH]; intros Ht s r H.
  - cbn in H. inversion H. exists []. split; [reflexivity | apply plain_nil].
  - destruct s as [|c s]; [discriminate|]. cbn in H.
    destruct (N.eqb_spec (Float.Py_TOLOWER c) d) as [E|E]; [|discriminate].
    assert (Hd : d <> chr "." /\ d <> chr "?").
    { destruct Ht as [Hc Hn]. split.
      - intros ->. rewrite count_cons, N.eqb_refl in Hc. discriminate.
      - intros ->. apply Hn. left. reflexivity. }
    assert (Ht' : plain t).
    { destruct Ht as [Hc Hn]. split.
      - rewrite count_cons in Hc. lia.
      - intros H'. apply Hn. right. exact H'. }
    destruct (IH Ht' s r H) as [p [-> Hp]].
    exists (c :: p). split; [reflexivity|].
    destruct Hd as [Hd1 Hd2].
    destruct (tolower_plain c d E Hd1 Hd2).
    apply plain_cons; assumption.
Qed.

Lemma word_plain (w : string) :
  forallb (fun c => negb (N.eqb c (chr ".") || N.eqb c (chr "?"))) (str w) = true ->
  plain (str w).
Proof.
  generalize (str w). intros p. induction p as [|c p IH]; cbn; intros H.
  - apply plain_nil.
  - apply andb_prop in H as [H1 H2]. apply negb_true_iff in H1.
    apply orb_false_elim in H1 as [A B].
    apply N.eqb_neq in A. apply N.eqb_neq in B.
    apply plain_cons; auto.
Qed.

Lemma Py_parse_inf_or_nan_split (s : pystr) (x : float64) (r : pystr) :
  Float.Py_parse_inf_or_nan s = Some (x, r) ->
  exists p, s = p ++ r /\ plain p.
Proof.
  unfold Float.Py_parse_inf_or_nan.
  destruct (Float.parse_sign s) as [negate s0] eqn:S.
  destruct (parse_sign_split _ _ _ S) as [p0 [-> Hp0]].
  destruct (Float.case_insensitive_match s0 (str "inf")) as [s1|] eqn:I.
  - destruct (case_insensitive_match_split _ (word_plain "inf" eq_refl) _ _ I)
      as [p1 [-> Hp1]].
    destruct (Float.case_insensitive_match s1 (str "inity")) as [s2|] eqn:J.
    + destruct (case_insensitive_match_split _ (word_plain "inity" eq_refl) _ _ J)
        as [p2 [-> Hp2]].
      intros H. inversion H; subst. exists (p0 ++ p1 ++ p2).
      split; [now rewrite <- !app_assoc|].
      auto using plain_app.
    + intros H. inversion H; subst. exists (p0 ++ p1).
      split; [now rewrite <- !app_assoc|]. auto using plain_app.
  - destruct (Float.case_insensitive_match s0 (str "nan")) as [s1|] eqn:J;
      [|discriminate].
    destruct (case_insensitive_match_split _ (word_plain "nan" eq_refl) _ _ J)
      as [p1 [-> Hp1]].
    intros H. inversion H; subst. exists (p0 ++ p1).
    split; [now rewrite <- !app_assoc|]. auto using plain_app.
Qed.

Lemma Py_dg_strtod_split (s : pystr) (x : float64) (r : pystr) :
  Float.Py_dg_strtod s = Some (x, r) ->
  exists p, s = p ++ r /\ one_point p.
Proof.
  unfold Float.Py_dg_strtod.
  destruct (Float.parse_sign s) as [sign s1] eqn:S.
  destruct (parse_sign_split _ _ _ S) as [p0 [-> Hp0]].
  destruct (Float.span_digits s1) as [ip s2] eqn:I.
  destruct (span_digits_split _ _ _ I) as [p1 [-> Hp1]].
  match goal with
  | |- (let (_, _) := ?m in _) = _ -> _ => destruct m as [fp s3] eqn:F
  end.
  assert (Hf : exists p2, s2 = p2 ++ s3 /\ one_point p2).
  { destruct s2 as [|c rest].
    - inversion F. exists []. split; [reflexivity|].
      apply plain_one_point, plain_nil.
    - destruct (N.eqb_spec c (chr ".")) as [E|E].
      + destruct (span_digits_split _ _ _ F) as [p [-> [Hc Hn]]].
        exists (c :: p). split; [reflexivity|]. subst c. split.
        * rewrite count_cons, N.eqb_refl, Hc. lia.
        * intros [H|H]; [discriminate | contradiction].
      + inversion F. exists []. split; [reflexivity|].
        apply plain_one_point, plain_nil. }
  destruct Hf as [p2 [-> Hp2]].
  cbv zeta. destruct (ip ++ fp) as [|d0 ds]; [discriminate|].
  match goal with
  | |- (if ?c then None else _) = _ -> _ => destruct c; [discriminate|]
  end.
  match goal with
  | |- (let (_, _) := ?m in _) = _ -> _ => destruct m as [e s4] eqn:X
  end.
  assert (He : exists p3, s3 = p3 ++ s4 /\ plain p3).
  { destruct s3 as [|c rest].
    - inversion X. exists []. split; [reflexivity | apply plain_nil].
    - destruct (N.eqb c (chr "e") || N.eqb c (chr "E"))%bool eqn:E.
      + destruct (Float.parse_sign rest) as [esign r1] eqn:S1.
        destruct (parse_sign_split _ _ _ S1) as [q1 [-> Hq1]].
        destruct (Float.span_digits r1) as [ed r2] eqn:D.
        destruct (span_digits_split _ _ _ D) as [q2 [-> Hq2]].
        destruct ed as [|d1 ed'].
        * inversion X. exists []. split; [reflexivity | apply plain_nil].
        * inversion X; subst. exists (c :: q1 ++ q2).
          split; [cbn; now rewrite <- app_assoc|].
          apply plain_cons; [| |auto using plain_app].
          -- apply orb_prop in E as [E|E]; apply N.eqb_eq in E; subst c;
               discriminate.
          -- apply orb_prop in E as [E|E]; apply N.eqb_eq in E; subst c;
               discriminate.
      + inversion X. exists []. split; [reflexivity | apply plain_nil]. }
  destruct He as [p3 [-> Hp3]].
  intros H. inversion H; subst. exists (p0 ++ p1 ++ p2 ++ p3).
  split; [now rewrite <- !app_assoc|].
  apply plain_app_one_point; [assumption|].
  apply plain_app_one_point; [assumption|].
  apply one_point_app_plain; assumption.
Qed.

Lemma PyOS_ascii_strtod_split (s : pystr) (x : float64) (r : pystr) :
  Float.PyOS_ascii_strtod s = Some (x, r) ->
  exists p, s = p ++ r /\ one_point p.
Proof.
  unfold Float.PyOS_ascii_strtod.
  destruct (Float.Py_dg_strtod s) as [[y r']|] eqn:D.
  - intros H. inversion H; subst. exact (Py_dg_strtod_split _ _ _ D).
  - intros H. destruct (Py_parse_inf_or_nan_split _ _ _ H) as [p [-> Hp]].
    exists p. split; [reflexivity | apply plain_one_point, Hp].
Qed.

Lemma lstrip_split (s : pystr) :
  exists p, s = p ++ Float.lstrip s /\ plain p.
Proof.
  induction s as [|c s [p [E Hp]]]; cbn.
  - exists []. split; [reflexivity | apply plain_nil].
  - destruct (Float.Py_ISSPACE c) eqn:W.
    + exists (c :: p). split; [cbn; congruence|].
      destruct (space_plain c W). apply plain_cons; assumption.
    + exists []. split; [reflexivity | apply plain_nil].
Qed.

Lemma drop_trailing_space_split (s : pystr) :
  exists q, s = Float.drop_trailing_space s ++ q /\ plain q.
Proof.
  induction s as [|c s [q [E Hq]]]; cbn.
  - exists []. split; [reflexivity | apply plain_nil].
  - destruct (Float.drop_trailing_space s) as [|d r].
    + cbn in E. subst s. destruct (Float.Py_ISSPACE c) eqn:W.
      * exists (c :: q). split; [reflexivity|].
        destruct (space_plain c W). apply plain_cons; assumption.
      * exists q. split; [reflexivity | assumption].
    + exists q. split; [cbn; f_equal; exact E | assumption].
Qed.

Lemma rstrip_split (s : pystr) :
  exists q, s = Float.rstrip s ++ q /\ plain q.
Proof.
  destruct s as [|c s]; cbn.
  - exists []. split; [reflexivity | apply plain_nil].
  - destruct (drop_trailing_space_split s) as [q [E Hq]].
    exists q. split; [congruence | assumption].
Qed.

Lemma float_from_string_inner_one_point (u : pystr) (x : float64) :
  Float.float_from_string_inner u = Returned x -> one_point u.
Proof.
  unfold Float.float_from_string_inner, Float.PyOS_string_to_double.
  destruct (lstrip_split u) as [p0 [E0 Hp0]].
  destruct (Float.lstrip u) as [|c u']; [discriminate|].
  destruct (rstrip_split (c :: u')) as [q [E1 Hq]].
  destruct (Float.PyOS_ascii_strtod (Float.rstrip (c :: u')))
    as [[y [|d r]]|] eqn:P; try discriminate.
  intros _. destruct (PyOS_ascii_strtod_split _ _ _ P) as [p [E2 Hp]].
  rewrite app_nil_r in E2. rewrite E2 in E1. rewrite E0, E1.
  apply plain_app_one_point; [assumption|].
  apply one_point_app_plain; assumption.
Qed.

Lemma remove_underscores_keeps (s : pystr) :
  forall prev d, Float.remove_underscores prev s = Some d ->
  count (chr ".") s = count (chr ".") d /\
  (In (chr "?") s -> In (chr "?") d).
Proof.
  induction s as [|c s IH]; cbn [Float.remove_underscores]; intros prev d H.
  - destruct (N.eqb prev (chr "_")); [discriminate|]. inversion H; subst.
    split; [reflexivity | intros []].
  - destruct (N.eqb_spec c (chr "_")) as [E|E].
    + destruct (Float.Py_ISDIGIT prev); [|discriminate].
      destruct (IH _ _ H) as [Hc Hn]. subst c. split.
      * rewrite count_cons. exact Hc.
      * intros [F|F]; [discriminate | auto].
    + destruct (N.eqb prev (chr "_") && negb (Float.Py_ISDIGIT c))%bool;
        [discriminate|].
      destruct (Float.remove_underscores c s) as [d'|] eqn:R; [|discriminate].
      cbn in H. inversion H; subst d.
      destruct (IH _ _ R) as [Hc Hn]. split.
      * rewrite !count_cons, Hc. reflexivity.
      * intros [F|F]; [left; exact F | right; auto].
Qed.

Lemma remove_underscores_one_point (s : pystr) (prev : codepoint) (d : pystr) :
  Float.remove_underscores prev s = Some d -> one_point d -> one_point s.
Proof.
  intros H [Hc Hn]. destruct (remove_underscores_keeps _ _ _ H) as [Ec En].
  split; [rewrite Ec; exact Hc | intros F; apply Hn, En, F].
Qed.

Section Accepted.
Context {ucd : UnicodeData}.

Lemma transform_loop_points (s : pystr) :
  ~ In (chr "?") (Float.transform_loop s) ->
  count (chr ".") (Float.transform_loop s) = count (chr ".") s.
Proof.
  induction s as [|ch s IH]; cbn [Float.transform_loop]; [reflexivity|].
  destruct (N.ltb_spec ch 127) as [L|L].
  - intros H. rewrite !count_cons, IH; [reflexivity|].
    intros F. apply H. right. exact F.
  - assert (Hch : N.eqb (chr ".") ch = false).
    { apply N.eqb_neq. change (chr ".") with 46%N. lia. }
    destruct (Py_UNICODE_ISSPACE ch).
    + intros H. rewrite !count_cons, Hch, IH; [reflexivity|].
      intros F. apply H. right. exact F.
    + cbv zeta. destruct (Py_UNICODE_TODECIMAL ch <? 0).
      * intros H. exfalso. apply H. left. reflexivity.
      * intros H. rewrite !count_cons, Hch, IH.
        -- assert (E : N.eqb (chr ".")
                         (chr "0" + Z.to_N (Py_UNICODE_TODECIMAL ch)) = false).
           { apply N.eqb_neq. change (chr ".") with 46%N.
             change (chr "0") with 48%N. lia. }
           rewrite E. reflexivity.
        -- intros F. apply H. right. exact F.
Qed.

Lemma transform_one_point (s : pystr) :
  one_point (Float.PyUnicode_TransformDecimalAndSpaceToASCII s) ->
  (count (chr ".") s <= 1)%nat.
Proof.
  unfold Float.PyUnicode_TransformDecimalAndSpaceToASCII.
  match goal with
  | |- context [if ?c then _ else _] => destruct c
  end; intros [Hc Hn]; [exact Hc|].
  rewrite <- (transform_loop_points s Hn). exact Hc.
Qed.

(** A text that [float] converts holds at most one period. *)
Lemma PyFloat_FromString_one_point (s : pystr) (x : float64) :
  Float.PyFloat_FromString s = Returned x ->
  (count (chr ".") s <= 1)%nat.
Proof.
  unfold Float.PyFloat_FromString,
    Float.Py_string_to_number_with_underscores.
  intros H. apply transform_one_point. revert H.
  destruct (existsb _ _).
  - destruct (Float.remove_underscores _ _) as [dup|] eqn:R;
      [|discriminate].
    intros H. apply (remove_underscores_one_point _ _ _ R).
    exact (float_from_string_inner_one_point _ _ H).
  - apply float_from_string_inner_one_point.
Qed.

Lemma count_replace_comma (s : pystr) :
  count (chr ".") (replace (chr ",") (chr ".") s) =
  (count (chr ",") s + count (chr ".") s)%nat.
Proof.
  induction s as [|c s IH]; [reflexivity|].
  cbn [replace map]. fold (replace (chr ",") (chr ".") s).
  rewrite !count_cons, IH.
  destruct (N.eqb_spec c (chr ",")) as [E|E].
  - subst c. cbn. lia.
  - rewrite (proj2 (N.eqb_neq (chr ",") c)) by congruence. lia.
Qed.

(** An operand that parses holds at most one comma or period. *)
Lemma parse_one_separator (s : pystr) (x : float64) :
  parse s = Returned x ->
  (count (chr ",") s + count (chr ".") s <= 1)%nat.
Proof.
  intros H. rewrite <- count_replace_comma.
  exact (PyFloat_FromString_one_point _ _ H).
Qed.

(** Two commas or more: the operand does not parse. *)
Lemma parse_two_commas (s : pystr) :
  (2 <= count (chr ",") s)%nat -> parse s = Raised ValueError.
Proof.
  intros H. destruct (parse s) as [x|e] eqn:P.
  - pose proof (parse_one_separator s x P). lia.
  - f_equal. exact (parse_raises _ _ P).
Qed.

(** Replacing the commas twice is replacing them once. *)
Lemma replace_comma_idempotent (s : pystr) :
  replace (chr ",") (chr ".") (replace (chr ",") (chr ".") s) =
  replace (chr ",") (chr ".") s.
Proof.
  unfold replace. rewrite map_map. apply map_ext. intros c.
  cbv beta. destruct (N.eqb c (chr ",")) eqn:E;
    [reflexivity | rewrite E; reflexivity].
Qed.

Lemma parse_replace (s : pystr) :
  parse (replace (chr ",") (chr ".") s) = parse s.
Proof. unfold parse. rewrite replace_comma_idempotent. reflexivity. Qed.
End Accepted.

(** * The claims *)

Section Claims.
Context {ucd : UnicodeData}.

(** C1.  For every pair of operand texts and every operator, [calculate]
    returns without an exception, whatever the window held before, and
    the display then holds one of the three results: a number, the
    division-by-zero message or the invalid-input message.  So
    [evaluate] always yields an [EvaluationResult]; the two error
    conditions are values of that type. *)
Theorem evaluate_total :
  (forall (o : Operator) (w : window),
     exists (r : EvaluationResult) (l : list arith),
       calculate (op_symbol o) w =
       (Returned tt,
        {| entry_a := entry_a w; entry_b := entry_b w;
           result := render r; performed := l |})) /\
  (forall (a b : pystr) (o : Operator),
     exists r : EvaluationResult, evaluate a b o = Some r).
Proof.
  split.
  - exact calculate_returns_result.
  - intros a b o.
    destruct (parse a) as [x|ea] eqn:Ha.
    + destruct (parse b) as [y|eb] eqn:Hb.
      * exists (dispatch o x y). exact (evaluate_valid o a b x y Ha Hb).
      * exists InvalidInput. apply evaluate_invalid. right. eauto.
    + exists InvalidInput. apply evaluate_invalid. left. eauto.
Qed.

(** C2.  When, after the commas are replaced, [float] rejects at least
    one operand, [evaluate] is [InvalidInput] for every operator, and
    [calculate] changes nothing but the display: no float operation is
    carried out.  In particular this holds for "abc" with "2" under Add
    and for the empty text with "2" under Multiply. *)
Theorem unparsable_operand_is_InvalidInput :
  (forall (a b : pystr) (o : Operator),
     parse a = Raised ValueError \/ parse b = Raised ValueError ->
     evaluate a b o = Some InvalidInput /\
     forall w, entry_a w = a -> entry_b w = b ->
       calculate (op_symbol o) w =
       (Returned tt, set_result (render InvalidInput) w) /\
       performed (snd (calculate (op_symbol o) w)) = performed w) /\
  evaluate (str "abc") (str "2") Add = Some InvalidInput /\
  evaluate (str "") (str "2") Multiply = Some InvalidInput.
Proof.
  split; [|split; reflexivity].
  intros a b o H.
  assert (H' : (exists e, parse a = Raised e) \/
               (exists e, parse b = Raised e))
    by (destruct H; [left | right]; eauto).
  split; [exact (evaluate_invalid o a b H')|].
  intros w Ea Eb. subst a b.
  rewrite (calculate_invalid w (op_symbol o) H').
  split; reflexivity.
Qed.

(** C3.  When both operands parse to floats [a] and [b], Divide yields
    [DivisionByZero] if [b] compares equal to zero, which is the case
    exactly for the two zeros, and [Number (a / b)] otherwise.  "5" by
    "0" is [DivisionByZero]; "10" by "4" is the number 2.5. *)
Theorem divide_on_parsed_operands :
  (forall (sa sb : pystr) (a b : float64),
     parse sa = Returned a -> parse sb = Returned b ->
     evaluate sa sb Divide =
     Some (if float_eq_zero b then DivisionByZero
           else Number (float_div a b))) /\
  (forall b : float64,
     float_eq_zero b = true <-> exists s, b = S754_zero s) /\
  evaluate (str "5") (str "0") Divide = Some DivisionByZero /\
  evaluate (str "10") (str "4") Divide = Some (Number (dyadic 5 (-1))) /\
  option_map (Qeq_bool (5 # 2)) (exact_value (dyadic 5 (-1))) = Some true.
Proof.
  split; [|split; [|split; [|split]]].
  - intros sa sb a b Ha Hb. exact (evaluate_valid Divide sa sb a b Ha Hb).
  - exact float_eq_zero_iff.
  - reflexivity.
  - vm_compute. reflexivity.
  - vm_compute. reflexivity.
Qed.

(** C4.  When both operands parse to floats [a] and [b], Add yields
    [Number (a + b)], Subtract [Number (a - b)] and Multiply
    [Number (a * b)]. *)
Theorem add_subtract_multiply_on_parsed_operands
    (sa sb : pystr) (a b : float64) :
  parse sa = Returned a -> parse sb = Returned b ->
  evaluate sa sb Add = Some (Number (float_add a b)) /\
  evaluate sa sb Subtract = Some (Number (float_sub a b)) /\
  evaluate sa sb Multiply = Some (Number (float_mul a b)).
Proof.
  intros Ha Hb. repeat split.
  - exact (evaluate_valid Add sa sb a b Ha Hb).
  - exact (evaluate_valid Subtract sa sb a b Ha Hb).
  - exact (evaluate_valid Multiply sa sb a b Ha Hb).
Qed.

(** C5.  The conversion of the operands comes before the dispatch: when
    [float] rejects an operand, [calculate] displays the invalid-input
    message for every operator string whatsoever, so the result is
    [InvalidInput] under each of the four operators, also under Divide
    with the divisor "0": "abc" by "0" is [InvalidInput] and not
    [DivisionByZero]. *)
Theorem invalid_input_before_dispatch :
  (forall (op : pystr) (w : window),
     parse (entry_a w) = Raised ValueError \/
     parse (entry_b w) = Raised ValueError ->
     calculate op w = (Returned tt, set_result (render InvalidInput) w)) /\
  (forall (a b : pystr) (o : Operator),
     parse a = Raised ValueError \/ parse b = Raised ValueError ->
     evaluate a b o = Some InvalidInput) /\
  parse (str "0") = Returned (S754_zero false) /\
  evaluate (str "abc") (str "0") Divide = Some InvalidInput /\
  evaluate (str "abc") (str "0") Divide <> Some DivisionByZero.
Proof.
  split; [|split; [|split; [|split]]].
  - intros op w H. apply calculate_invalid.
    destruct H; [left | right]; eauto.
  - intros a b o H. apply evaluate_invalid.
    destruct H; [left | right]; eauto.
  - reflexivity.
  - reflexivity.
  - discriminate.
Qed.

(** C6, as amended.  Every comma of an operand is replaced by a period
    before the conversion, so operands written with commas evaluate as
    the same operands written with periods.  "3,14" plus "2" equals
    "3.14" plus "2", and both are the number that binary64 addition
    gives for the floats 3.14 and 2: 5787125521171088 * 2^-50, which
    reads 5.140000000000001 and lies one unit in the last place above
    the float 5.14. *)
Theorem comma_read_as_decimal_point :
  (forall (a b : pystr) (o : Operator),
     evaluate (replace (chr ",") (chr ".") a)
              (replace (chr ",") (chr ".") b) o = evaluate a b o) /\
  evaluate (str "3,14") (str "2") Add =
  evaluate (str "3.14") (str "2") Add /\
  evaluate (str "3.14") (str "2") Add =
  Some (Number (dyadic 5787125521171088 (-50))) /\
  parse (str "5.140000000000001") =
  Returned (dyadic 5787125521171088 (-50)) /\
  parse (str "5.14") = Returned (dyadic 5787125521171087 (-50)).
Proof.
  split; [|split; [|split; [|split]]]; try (vm_compute; reflexivity).
  intros a b o.
  destruct (parse a) as [x|ea] eqn:Ha.
  - destruct (parse b) as [y|eb] eqn:Hb.
    + rewrite (evaluate_valid o a b x y Ha Hb).
      apply evaluate_valid; rewrite parse_replace; assumption.
    + rewrite (evaluate_invalid o a b) by (right; eauto).
      apply evaluate_invalid. right. rewrite parse_replace. eauto.
  - rewrite (evaluate_invalid o a b) by (left; eauto).
    apply evaluate_invalid. left. rewrite parse_replace. eauto.
Qed.

(** C7.  An evaluation is a function of the two operand texts and the
    operator alone: pressing an operator on any window gives the result
    that [evaluate] gives for the window's entry texts, whatever the
    display held and whatever was computed before.  It leaves the entry
    texts as they are, so pressing the operator a second time gives the
    identical result. *)
Theorem evaluate_deterministic_and_pure (o : Operator) (w : window) :
  fst (press o w) = evaluate (entry_a w) (entry_b w) o /\
  entry_a (snd (press o w)) = entry_a w /\
  entry_b (snd (press o w)) = entry_b w /\
  fst (press o (snd (press o w))) = fst (press o w) /\
  result (snd (press o (snd (press o w)))) = result (snd (press o w)).
Proof.
  assert (reads : forall w1 w2,
    entry_a w1 = entry_a w2 -> entry_b w1 = entry_b w2 ->
    fst (press o w1) = fst (press o w2) /\
    result (snd (press o w1)) = result (snd (press o w2))).
  { intros w1 w2 Ea Eb. unfold press.
    destruct (calculate_reads_entries (op_symbol o) w1 w2 Ea Eb) as [F R].
    destruct (calculate (op_symbol o) w1) as [[u1|e1] w1'];
      destruct (calculate (op_symbol o) w2) as [[u2|e2] w2'];
      cbn in *; try discriminate; rewrite ?R; auto. }
  assert (keeps : entry_a (snd (press o w)) = entry_a w /\
                  entry_b (snd (press o w)) = entry_b w).
  { unfold press.
    destruct (calculate_keeps_entries (op_symbol o) w) as [Ka Kb].
    destruct (calculate (op_symbol o) w) as [[u|e] w']; cbn in *; auto. }
  destruct keeps as [Ka Kb].
  split; [|split; [exact Ka|split; [exact Kb|]]].
  - unfold evaluate. apply reads; reflexivity.
  - apply reads; assumption.
Qed.

(** C9.  [float] accepts more than plain decimal numerals: "inf",
    "nan", "1e3", "1_000" and " 1 " all convert, and [evaluate] returns
    a [Number] for them rather than [InvalidInput]; "inf" plus "2" is
    the number plus infinity. *)
Theorem float_grammar_beyond_decimals :
  evaluate (str "inf") (str "2") Add = Some (Number (S754_infinity false)) /\
  evaluate (str "nan") (str "2") Add = Some (Number S754_nan) /\
  evaluate (str "1e3") (str "2") Add = Some (Number (dyadic 1002 0)) /\
  evaluate (str "1_000") (str "2") Add = Some (Number (dyadic 1002 0)) /\
  evaluate (str " 1 ") (str "2") Add = Some (Number (dyadic 3 0)) /\
  parse (str "inf") = Returned (S754_infinity false) /\
  parse (str "nan") = Returned S754_nan /\
  parse (str "1e3") = Returned (dyadic 1000 0) /\
  parse (str "1_000") = Returned (dyadic 1000 0) /\
  parse (str " 1 ") = Returned (dyadic 1 0).
Proof. repeat split; vm_compute; reflexivity. Qed.

(** C10.  A comma meant as a thousands separator is read as a decimal
    point: "1,000" plus "1" is the number 2, not the number 1001 and not
    [InvalidInput].  An operand with two or more commas does not parse,
    so the result is [InvalidInput] under every operator, as for
    "1,2,3". *)
Theorem thousands_comma_is_decimal_point :
  evaluate (str "1,000") (str "1") Add = Some (Number (dyadic 2 0)) /\
  evaluate (str "1,000") (str "1") Add <> Some (Number (dyadic 1001 0)) /\
  evaluate (str "1,000") (str "1") Add <> Some InvalidInput /\
  option_map (Qeq_bool 2) (exact_value (dyadic 2 0)) = Some true /\
  option_map (Qeq_bool 1001) (exact_value (dyadic 1001 0)) = Some true /\
  (forall (a b : pystr) (o : Operator),
     (2 <= count (chr ",") a)%nat \/ (2 <= count (chr ",") b)%nat ->
     evaluate a b o = Some InvalidInput) /\
  evaluate (str "1,2,3") (str "1") Add = Some InvalidInput.
Proof.
  split; [vm_compute; reflexivity|].
  split; [vm_compute; discriminate|].
  split; [vm_compute; discriminate|].
  split; [vm_compute; reflexivity|].
  split; [vm_compute; reflexivity|].
  split; [|vm_compute; reflexivity].
  intros a b o H. apply evaluate_invalid.
  destruct H as [H|H]; [left | right];
    exists ValueError; apply parse_two_commas; exact H.
Qed.
End Claims.

(** * Instances on concrete inputs

    The statements below are closed: they are taken at the excerpt of the
    Unicode database.  The last operand of the first one is written with
    Arabic-Indic digits. *)

Lemma unparsable_operand_is_InvalidInput_witness :
  (@parse ucd_excerpt (str "1.2.3") = Raised ValueError \/
   @parse ucd_excerpt [1634%N] = Raised ValueError) /\
  @evaluate ucd_excerpt (str "1.2.3") [1634%N] Subtract = Some InvalidInput.
Proof.
  assert (H : @parse ucd_excerpt (str "1.2.3") = Raised ValueError \/
              @parse ucd_excerpt [1634%N] = Raised ValueError)
    by (left; vm_compute; reflexivity).
  split; [exact H|].
  exact (proj1 (proj1 (@unparsable_operand_is_InvalidInput ucd_excerpt)
                  (str "1.2.3") [1634%N] Subtract H)).
Defined.

Lemma divide_on_parsed_operands_witness :
  @parse ucd_excerpt (str "1") = Returned (dyadic 1 0) /\
  @parse ucd_excerpt (str "-0,0") = Returned (S754_zero true) /\
  @evaluate ucd_excerpt (str "1") (str "-0,0") Divide = Some DivisionByZero.
Proof.
  split; [vm_compute; reflexivity|].
  split; [vm_compute; reflexivity|].
  apply (proj1 (@divide_on_parsed_operands ucd_excerpt)
           (str "1") (str "-0,0") (dyadic 1 0) (S754_zero true));
    vm_compute; reflexivity.
Defined.

Lemma add_subtract_multiply_on_parsed_operands_witness :
  @parse ucd_excerpt (str "1,5") = Returned (dyadic 3 (-1)) /\
  @parse ucd_excerpt (str "2") = Returned (dyadic 2 0) /\
  @evaluate ucd_excerpt (str "1,5") (str "2") Add =
    Some (Number (float_add (dyadic 3 (-1)) (dyadic 2 0))) /\
  @evaluate ucd_excerpt (str "1,5") (str "2") Subtract =
    Some (Number (float_sub (dyadic 3 (-1)) (dyadic 2 0))) /\
  @evaluate ucd_excerpt (str "1,5") (str "2") Multiply =
    Some (Number (float_mul (dyadic 3 (-1)) (dyadic 2 0))).
Proof.
  split; [vm_compute; reflexivity|].
  split; [vm_compute; reflexivity|].
  apply (@add_subtract_multiply_on_parsed_operands ucd_excerpt
           (str "1,5") (str "2") (dyadic 3 (-1)) (dyadic 2 0));
    vm_compute; reflexivity.
Defined.

Lemma invalid_input_before_dispatch_witness :
  (@parse ucd_excerpt (entry_a (fresh (str "abc") (str "0")))
     = Raised ValueError \/
   @parse ucd_excerpt (entry_b (fresh (str "abc") (str "0")))
     = Raised ValueError) /\
  @calculate ucd_excerpt (str "%") (fresh (str "abc") (str "0")) =
  (Returned tt,
   set_result (render InvalidInput) (fresh (str "abc") (str "0"))).
Proof.
  assert (H : @parse ucd_excerpt (entry_a (fresh (str "abc") (str "0")))
                = Raised ValueError \/
              @parse ucd_excerpt (entry_b (fresh (str "abc") (str "0")))
                = Raised ValueError)
    by (left; vm_compute; reflexivity).
  split; [exact H|].
  exact (proj1 (@invalid_input_before_dispatch ucd_excerpt)
           (str "%") (fresh (str "abc") (str "0")) H).
Defined.

Lemma thousands_comma_is_decimal_point_witness :
  ((2 <= count (chr ",") (str "1,000,000"))%nat \/
   (2 <= count (chr ",") (str "1"))%nat) /\
  @evaluate ucd_excerpt (str "1,000,000") (str "1") Multiply =
  Some InvalidInput.
Proof.
  assert (H : (2 <= count (chr ",") (str "1,000,000"))%nat \/
              (2 <= count (chr ",") (str "1"))%nat)
    by (left; vm_compute; lia).
  split; [exact H|].
  exact (proj1 (proj2 (proj2 (proj2 (proj2 (proj2
           (@thousands_comma_is_decimal_point ucd_excerpt))))))
           (str "1,000,000") (str "1") Multiply H).
Defined.

(** C6 as the specification states it fails: "3,14" plus "2" is not the
    float 5.14.  The float that [float("5.14")] returns is strictly
    closer to 514/100 than the sum is, so the sum is not a nearest
    binary64 value of 5.14. *)
Lemma comma_sum_is_not_the_float_5_14 :
  ~ (@evaluate ucd_excerpt (str "3,14") (str "2") Add =
     @evaluate ucd_excerpt (str "3.14") (str "2") Add /\
     exists x,
       @evaluate ucd_excerpt (str "3.14") (str "2") Add = Some (Number x) /\
       nearest_float (514 # 100) x).
Proof.
  intros [_ [x [E [_ [v [Ev H]]]]]].
  vm_compute in E. injection E as <-.
  vm_compute in Ev. injection Ev as <-.
  specialize (H (dyadic 5787125521171087 (-50)) _ eq_refl eq_refl).
  apply Qle_bool_iff in H. vm_compute in H. discriminate.
Qed.

(** * Further properties of the program *)

(** ** [clear], the buttons and the event loop *)

Lemma delete_range_all (t : pystr) : delete_range (At 0) END t = [].
Proof.
  unfold delete_range, index_in. rewrite Nat.min_0_l.
  destruct t as [|c t]; [reflexivity|].
  cbn [List.length Nat.ltb Nat.leb firstn List.app]. apply skipn_all.
Qed.

Lemma clear_equation (s : shell) :
  clear s =
  (Returned tt,
   {| win := {| entry_a := []; entry_b := []; result := TkString [];
                performed := performed (win s) |};
      focus := entry_a_widget |}).
Proof.
  unfold clear, gui_seq, on_window, entry_a_delete, entry_b_delete,
    StringVar_set, set_result, focus_set.
  cbn. rewrite !delete_range_all. reflexivity.
Qed.

Lemma parse_empty {ucd : UnicodeData} : parse [] = Raised ValueError.
Proof. reflexivity. Qed.

Lemma render_not_empty (r : EvaluationResult) : render r <> TkString [].
Proof. destruct r; discriminate. Qed.

Lemma operator_button_command (o : Operator) :
  command_of (button_of (operator_button o)) = Calculate (op_symbol o).
Proof. destruct o; reflexivity. Qed.

Section ShellProperties.
Context {ucd : UnicodeData}.

(** Pressing an operator on a window displays what [evaluate] gives for
    the entry texts. *)
Lemma calculate_displays_evaluate (o : Operator) (w : window) :
  exists (r : EvaluationResult) (l : list arith),
    evaluate (entry_a w) (entry_b w) o = Some r /\
    calculate (op_symbol o) w =
    (Returned tt,
     {| entry_a := entry_a w; entry_b := entry_b w;
        result := render r; performed := l |}).
Proof.
  destruct (calculate_returns_result o w) as [r [l E]].
  exists r, l. split; [|exact E].
  destruct (calculate_reads_entries (op_symbol o)
              (fresh (entry_a w) (entry_b w)) w eq_refl eq_refl) as [F R].
  unfold evaluate, press. rewrite E in F, R. cbn [fst snd result] in F, R.
  destruct (calculate (op_symbol o) (fresh (entry_a w) (entry_b w)))
    as [[u|e] w'] eqn:C; cbn [fst snd] in F, R; [|discriminate].
  cbn [fst]. rewrite R. apply classify_render.
Qed.

Lemma on_window_calculate (o : Operator) (s : shell) :
  exists (r : EvaluationResult) (l : list arith),
    evaluate (entry_a (win s)) (entry_b (win s)) o = Some r /\
    on_window (calculate (op_symbol o)) s =
    (Returned tt,
     {| win := {| entry_a := entry_a (win s); entry_b := entry_b (win s);
                  result := render r; performed := l |};
        focus := focus s |}).
Proof.
  destruct (calculate_displays_evaluate o (win s)) as [r [l [E C]]].
  exists r, l. split; [exact E|]. unfold on_window. rewrite C. reflexivity.
Qed.

(** What each event does to the state: a [clear], a [calculate] on an
    operator's symbol, or a change that leaves the display alone. *)
Lemma handle_cases (e : event) (s : shell) :
  (runs_clear e = true /\ runs_calculate e = false /\
   handle e s = clear s) \/
  (runs_clear e = false /\ runs_calculate e = true /\
   exists o, handle e s = on_window (calculate (op_symbol o)) s) \/
  (runs_clear e = false /\ runs_calculate e = false /\
   exists s', handle e s = (Returned tt, s') /\
              result (win s') = result (win s)).
Proof.
  destruct e as [b| | |ent t|target].
  - destruct b.
    + right; left. repeat split. exists Add. reflexivity.
    + right; left. repeat split. exists Subtract. reflexivity.
    + right; left. repeat split. exists Multiply. reflexivity.
    + right; left. repeat split. exists Divide. reflexivity.
    + left. repeat split.
  - right; left. repeat split. exists Add. reflexivity.
  - left. repeat split.
  - right; right. repeat split. eexists. split; [reflexivity|].
    destruct ent; reflexivity.
  - right; right. repeat split. eexists. split; reflexivity.
Qed.

(** Every callback returns. *)
Lemma handle_returns (e : event) (s : shell) :
  exists s', handle e s = (Returned tt, s').
Proof.
  destruct (handle_cases e s) as [[_ [_ H]]|[[_ [_ [o H]]]|[_ [_ [s' [H _]]]]]].
  - rewrite H, clear_equation. eauto.
  - rewrite H. destruct (on_window_calculate o s) as [r [l [_ E]]].
    rewrite E. eauto.
  - eauto.
Qed.
End ShellProperties.

Section ShellTheorems.
Context {ucd : UnicodeData}.

(** X1.  The clear button and the Escape key, from any state, empty both
    entries and the display and put the focus into the first entry: the
    window is as it was at the start.  No float operation is carried out
    and nothing is raised. *)
Theorem clear_event_resets (e : event) (s : shell) :
  runs_clear e = true ->
  handle e s =
  (Returned tt,
   {| win := {| entry_a := entry_a (win startup);
                entry_b := entry_b (win startup);
                result := result (win startup);
                performed := performed (win s) |};
      focus := focus startup |}).
Proof.
  intros C.
  destruct (handle_cases e s) as [[_ [_ H]]|[[F _]|[F _]]].
  - rewrite H. apply clear_equation.
  - congruence.
  - congruence.
Qed.

(** X2.  An operator pressed right after a clear, by button or by the
    Return key, displays the invalid-input message: the empty entries do
    not convert.  The entries stay empty and no float operation is
    carried out. *)
Theorem calculate_after_clear_is_invalid (e1 e2 : event) (s : shell) :
  runs_clear e1 = true ->
  runs_calculate e2 = true ->
  handle e2 (snd (handle e1 s)) =
  (Returned tt,
   {| win := {| entry_a := []; entry_b := [];
                result := TkString MSG_INVALID;
                performed := performed (win s) |};
      focus := entry_a_widget |}).
Proof.
  intros C1 C2.
  assert (E : handle e1 s = clear s).
  { destruct (handle_cases e1 s) as [[_ [_ H]]|[[F _]|[F _]]];
      [exact H | congruence | congruence]. }
  rewrite E, clear_equation. cbn [snd].
  match goal with |- handle e2 ?s1 = _ => set (s1' := s1) end.
  destruct (handle_cases e2 s1') as [[_ [F _]]|[[_ [_ [o H]]]|[_ [F _]]]];
    try congruence.
  rewrite H. unfold on_window.
  rewrite (calculate_invalid_a (win s1') (op_symbol o) ValueError parse_empty).
  reflexivity.
Qed.

Lemma handle_display_ok (e : event) (s : shell) :
  display_ok s -> display_ok (snd (handle e s)).
Proof.
  intros D.
  destruct (handle_cases e s) as [[_ [_ H]]|[[_ [_ [o H]]]|[_ [_ [s' [H R]]]]]].
  - rewrite H, clear_equation. left. reflexivity.
  - rewrite H. destruct (on_window_calculate o s) as [r [l [_ E]]].
    rewrite E. right. exists r. reflexivity.
  - rewrite H. unfold display_ok. cbn [snd]. rewrite R. exact D.
Qed.

Lemma mainloop_display_ok (es : list event) :
  forall s, display_ok s ->
  fst (mainloop es s) = [] /\ display_ok (snd (mainloop es s)).
Proof.
  induction es as [|e es IH]; intros s D; cbn [mainloop].
  - split; [reflexivity | exact D].
  - pose proof (handle_display_ok e s D) as D'.
    destruct (handle_returns e s) as [s' H]. rewrite H in D' |- *.
    apply IH. exact D'.
Qed.

(** X3.  Whatever the user does, in whatever order, no callback lets an
    exception escape into the event loop, and the display holds nothing or
    a number or one of the two messages; it never holds the
    unknown-operator message. *)
Theorem mainloop_never_fails (es : list event) :
  fst (mainloop es startup) = [] /\
  (result (win (snd (mainloop es startup))) = TkString [] \/
   exists r, result (win (snd (mainloop es startup))) = render r) /\
  result (win (snd (mainloop es startup))) <> TkString MSG_UNKNOWN.
Proof.
  assert (D0 : display_ok startup) by (left; reflexivity).
  destruct (mainloop_display_ok es startup D0) as [F D].
  split; [exact F|]. split; [exact D|].
  destruct D as [D|[r D]]; rewrite D;
    [discriminate | apply render_not_unknown].
Qed.

Lemma mainloop_cleared (es : list event) :
  forall (s : shell) (c : bool),
  (result (win s) = TkString [] <-> c = true) ->
  (result (win (snd (mainloop es s))) = TkString [] <->
   fold_left
     (fun c e => if runs_clear e then true
                 else if runs_calculate e then false else c)
     es c = true).
Proof.
  induction es as [|e es IH]; intros s c H; cbn [mainloop fold_left].
  - exact H.
  - destruct (handle_returns e s) as [s' E]. rewrite E. apply IH.
    destruct (handle_cases e s)
      as [[C [_ K]]|[[C [L [o K]]]|[C [L [s1 [K R]]]]]];
      rewrite C; try rewrite L.
    + rewrite K, clear_equation in E. inversion E; subst s'.
      split; reflexivity.
    + destruct (on_window_calculate o s) as [r [l [_ E']]].
      rewrite K, E' in E. inversion E; subst s'. cbn [win result].
      split; [intros F; destruct (render_not_empty r F) | discriminate].
    + rewrite K in E. inversion E; subst s'. rewrite R. exact H.
Qed.

(** X4.  After any sequence of events from the start, the display is
    empty exactly when no [calculate] has run since the last clear (or
    since the start): every calculation leaves something on the display
    and only a clear removes it. *)
Theorem display_empty_iff_cleared (es : list event) :
  result (win (snd (mainloop es startup))) = TkString [] <->
  cleared es = true.
Proof.
  apply mainloop_cleared. split; reflexivity.
Qed.

(** X5.  Pressing the button of an operator displays the result that
    [evaluate] gives for the two entry texts under that operator; the
    entry texts and the focus stay as they are.  The Return key does what
    the plus button does. *)
Theorem operator_button_displays_evaluate (o : Operator) (s : shell) :
  (exists (r : EvaluationResult) (l : list arith),
     evaluate (entry_a (win s)) (entry_b (win s)) o = Some r /\
     handle (Invoke (operator_button o)) s =
     (Returned tt,
      {| win := {| entry_a := entry_a (win s); entry_b := entry_b (win s);
                   result := render r; performed := l |};
         focus := focus s |})) /\
  handle Key_Return s = handle (Invoke (operator_button Add)) s.
Proof.
  split; [|reflexivity].
  destruct (on_window_calculate o s) as [r [l [E H]]].
  exists r, l. split; [exact E|].
  cbn [handle]. rewrite operator_button_command. exact H.
Qed.

(** X6.  [make_btn] without an operator, or with the empty string as
    operator, makes a button that clears.  With any other operator
    string the button runs [calculate] on it; if that string is none of
    the four symbols and both entries convert, pressing the button
    displays the unknown-operator message. *)
Theorem make_btn_command (label : pystr) (colour : option pystr) :
  command_of (make_btn label None colour) = Clear /\
  command_of (make_btn label (Some []) colour) = Clear /\
  (forall op : pystr, op <> [] ->
     command_of (make_btn label (Some op) colour) = Calculate op) /\
  (forall (op : pystr) (s : shell) (a b : float64),
     op <> [] -> (forall o, op <> op_symbol o) ->
     parse (entry_a (win s)) = Returned a ->
     parse (entry_b (win s)) = Returned b ->
     run_command (command_of (make_btn label (Some op) colour)) s =
     (Returned tt,
      {| win := set_result (TkString MSG_UNKNOWN) (win s);
         focus := focus s |})).
Proof.
  assert (K : forall op : pystr, op <> [] ->
            command_of (make_btn label (Some op) colour) = Calculate op).
  { intros [|c op] H; [congruence | reflexivity]. }
  split; [reflexivity|]. split; [reflexivity|]. split; [exact K|].
  intros op s a b Hne Hop Ha Hb. rewrite (K op Hne).
  cbn [run_command]. unfold on_window.
  rewrite (calculate_other (win s) a b Ha Hb op Hop). reflexivity.
Qed.
End ShellTheorems.

(** ** The operators that reach [calculate] *)

Section Operators.
Context {ucd : UnicodeData}.

(** C8.  The operators are the four values Add, Subtract, Multiply and
    Divide, with distinct symbols.  Every button whose command is
    [calculate] passes the symbol of one of them and is that operator's
    button, each operator has its button, and every callback that runs
    [calculate], the Return binding included, runs it on the symbol of
    one of the four.  On such a symbol [calculate] returns with a display
    that is not the unknown-operator message, and on operands that parse
    the display is the outcome of that operator's own branch.  So in no
    run of the event loop does the display hold the unknown-operator
    message: the [else] branch is never reached. *)
Theorem operator_enumeration_closed :
  (forall (b : button_id) (op : pystr),
     command_of (button_of b) = Calculate op ->
     exists o, op = op_symbol o /\ b = operator_button o) /\
  (forall o : Operator,
     command_of (button_of (operator_button o)) = Calculate (op_symbol o)) /\
  (forall e : event, runs_calculate e = true ->
     exists o, forall s : shell,
       handle e s = on_window (calculate (op_symbol o)) s) /\
  (forall o1 o2 : Operator, op_symbol o1 = op_symbol o2 -> o1 = o2) /\
  (forall (o : Operator) (w : window),
     fst (calculate (op_symbol o) w) = Returned tt /\
     result (snd (calculate (op_symbol o) w)) <> TkString MSG_UNKNOWN) /\
  (forall (o : Operator) (w : window) (a b : float64),
     parse (entry_a w) = Returned a -> parse (entry_b w) = Returned b ->
     result (snd (calculate (op_symbol o) w)) =
     match o with
     | Add => TkFloat (float_add a b)
     | Subtract => TkFloat (float_sub a b)
     | Multiply => TkFloat (float_mul a b)
     | Divide => if float_eq_zero b then TkString MSG_DIV0
                 else TkFloat (float_div a b)
     end) /\
  (forall es : list event,
     fst (mainloop es startup) = [] /\
     result (win (snd (mainloop es startup))) <> TkString MSG_UNKNOWN).
Proof.
  split; [|split; [|split; [|split; [|split; [|split]]]]].
  - intros b op H. destruct b; cbn in H; inversion H; subst op.
    + exists Add. split; reflexivity.
    + exists Subtract. split; reflexivity.
    + exists Multiply. split; reflexivity.
    + exists Divide. split; reflexivity.
  - exact operator_button_command.
  - intros e H. destruct e as [b| | |ent t|target]; try discriminate.
    + destruct b; try discriminate;
        [exists Add | exists Subtract | exists Multiply | exists Divide];
        intros s; reflexivity.
    + exists Add. intros s. reflexivity.
  - intros o1 o2 H. destruct o1, o2; (reflexivity || discriminate).
  - intros o w. destruct (calculate_returns_result o w) as [r [l E]].
    rewrite E. split; [reflexivity | apply render_not_unknown].
  - intros o w a b Ha Hb.
    destruct (calculate_valid o w a b Ha Hb) as [l E]. rewrite E.
    destruct o; cbn; [reflexivity..|].
    destruct (float_eq_zero b); reflexivity.
  - intros es.
    assert (D0 : display_ok startup) by (left; reflexivity).
    destruct (mainloop_display_ok es startup D0) as [F D].
    split; [exact F|].
    destruct D as [D|[r D]]; rewrite D;
      [discriminate | apply render_not_unknown].
Qed.
End Operators.

(** ** The arithmetic on operand texts *)

Lemma float_add_comm (x y : float64) : float_add x y = float_add y x.
Proof.
  destruct x as [sx|sx| |sx mx ex], y as [sy|sy| |sy my ey];
    try reflexivity; try (destruct sx, sy; reflexivity).
  unfold float_add, SFadd. rewrite (Z.min_comm ey ex).
  f_equal. apply Z.add_comm.
Qed.

Lemma float_mul_comm (x y : float64) : float_mul x y = float_mul y x.
Proof.
  destruct x as [sx|sx| |sx mx ex], y as [sy|sy| |sy my ey];
    try reflexivity; try (destruct sx, sy; reflexivity).
  unfold float_mul, SFmul.
  rewrite (xorb_comm sy sx), (Pos.mul_comm my mx), (Z.add_comm ey ex).
  reflexivity.
Qed.

Lemma float_sub_diag (x : float64) :
  is_finite x = true -> float_sub x x = S754_zero false.
Proof.
  destruct x as [s|s| |s m e]; try discriminate; intros _.
  - destruct s; reflexivity.
  - unfold float_sub, SFsub. rewrite Z.sub_diag. reflexivity.
Qed.

Lemma float_nan_right (a : float64) :
  float_add a S754_nan = S754_nan /\ float_sub a S754_nan = S754_nan /\
  float_mul a S754_nan = S754_nan /\ float_div a S754_nan = S754_nan.
Proof. destruct a; repeat split. Qed.

Lemma float_nan_left (b : float64) :
  float_add S754_nan b = S754_nan /\ float_sub S754_nan b = S754_nan /\
  float_mul S754_nan b = S754_nan /\ float_div S754_nan b = S754_nan.
Proof. repeat split. Qed.

(** *** Blank operands and blanks around an operand *)

Lemma space_facts (c : codepoint) :
  Float.Py_ISSPACE c = true ->
  N.eqb c (chr ",") = false /\ (c <? 127)%N = true /\ (c <? 128)%N = true /\
  N.eqb (chr "_") c = false /\ N.eqb c (chr "_") = false /\
  Float.Py_ISDIGIT c = false.
Proof.
  unfold Float.Py_ISSPACE, Float.Py_ISDIGIT. intros H.
  change (chr ",") with 44%N. change (chr "_") with 95%N.
  assert (R : (9 <= c <= 13)%N \/ c = 32%N).
  { apply orb_prop in H as [H|H].
    - apply andb_prop in H as [H1 H2].
      apply N.leb_le in H1. apply N.leb_le in H2. left. lia.
    - apply N.eqb_eq in H. right. exact H. }
  repeat split;
    try (apply N.eqb_neq; lia); try (apply N.ltb_lt; lia).
  apply andb_false_iff. left. apply N.leb_gt. lia.
Qed.

Lemma blank_cons (c : codepoint) (s : pystr) :
  blank (c :: s) <-> Float.Py_ISSPACE c = true /\ blank s.
Proof. unfold blank. cbn [forallb]. apply andb_true_iff. Qed.

Lemma replace_blank (l : pystr) :
  blank l -> replace (chr ",") (chr ".") l = l.
Proof.
  induction l as [|c l IH]; [reflexivity|]. intros H.
  apply blank_cons in H as [H1 H2]. cbn [replace map].
  fold (replace (chr ",") (chr ".") l). rewrite (IH H2).
  destruct (space_facts c H1) as [E _]. rewrite E. reflexivity.
Qed.

Lemma replace_pad (l s r : pystr) :
  blank l -> blank r ->
  replace (chr ",") (chr ".") (l ++ s ++ r) =
  l ++ replace (chr ",") (chr ".") s ++ r.
Proof.
  intros Hl Hr.
  assert (A : forall x y, replace (chr ",") (chr ".") (x ++ y) =
                          replace (chr ",") (chr ".") x ++
                          replace (chr ",") (chr ".") y)
    by (intros x y; apply map_app).
  rewrite !A, (replace_blank l Hl), (replace_blank r Hr). reflexivity.
Qed.

Lemma remove_underscores_prev (x : pystr) (p1 p2 : codepoint) :
  N.eqb p1 (chr "_") = false -> Float.Py_ISDIGIT p1 = false ->
  N.eqb p2 (chr "_") = false -> Float.Py_ISDIGIT p2 = false ->
  Float.remove_underscores p1 x = Float.remove_underscores p2 x.
Proof.
  intros U1 D1 U2 D2. destruct x as [|p rest]; cbn [Float.remove_underscores].
  - rewrite U1, U2. reflexivity.
  - rewrite U1, U2, D1, D2. reflexivity.
Qed.

Lemma remove_underscores_blank (r : pystr) :
  forall prev, blank r -> N.eqb prev (chr "_") = false ->
  Float.remove_underscores prev r = Some r.
Proof.
  induction r as [|c r IH]; intros prev H U; cbn [Float.remove_underscores].
  - rewrite U. reflexivity.
  - apply blank_cons in H as [H1 H2].
    destruct (space_facts c H1) as [_ [_ [_ [_ [E _]]]]].
    rewrite E, U. cbn [andb]. rewrite (IH c H2 E). reflexivity.
Qed.

Lemma remove_underscores_blank_prefix (l x : pystr) :
  forall prev, blank l ->
  N.eqb prev (chr "_") = false -> Float.Py_ISDIGIT prev = false ->
  Float.remove_underscores prev (l ++ x) =
  option_map (List.app l) (Float.remove_underscores prev x).
Proof.
  induction l as [|c l IH]; intros prev H U D.
  - cbn [List.app]. destruct (Float.remove_underscores prev x); reflexivity.
  - apply blank_cons in H as [H1 H2].
    destruct (space_facts c H1) as [_ [_ [_ [_ [E Dc]]]]].
    cbn [List.app Float.remove_underscores]. rewrite E, U. cbn [andb].
    rewrite (IH c H2 E Dc).
    rewrite (remove_underscores_prev x c prev E Dc U D).
    destruct (Float.remove_underscores prev x); reflexivity.
Qed.

Lemma remove_underscores_blank_suffix (r : pystr) :
  blank r ->
  forall x prev,
  Float.remove_underscores prev (x ++ r) =
  option_map (fun d => d ++ r) (Float.remove_underscores prev x).
Proof.
  intros H. induction x as [|p x IH]; intros prev.
  - cbn [List.app]. destruct r as [|c r']; cbn [Float.remove_underscores].
    + destruct (N.eqb prev (chr "_")); reflexivity.
    + apply blank_cons in H as [H1 H2].
      destruct (space_facts c H1) as [_ [_ [_ [_ [E Dc]]]]].
      rewrite E, Dc. destruct (N.eqb prev (chr "_")); [reflexivity|].
      cbn [andb negb]. rewrite (remove_underscores_blank r' c H2 E).
      reflexivity.
  - cbn [List.app Float.remove_underscores].
    destruct (N.eqb p (chr "_")).
    + destruct (Float.Py_ISDIGIT prev); [apply IH | reflexivity].
    + destruct (N.eqb prev (chr "_") && negb (Float.Py_ISDIGIT p))%bool;
        [reflexivity|].
      rewrite IH. destruct (Float.remove_underscores p x); reflexivity.
Qed.

Lemma lstrip_blank_prefix (l y : pystr) :
  blank l -> Float.lstrip (l ++ y) = Float.lstrip y.
Proof.
  induction l as [|c l IH]; [reflexivity|]. intros H.
  apply blank_cons in H as [H1 H2]. cbn [List.app Float.lstrip].
  rewrite H1. exact (IH H2).
Qed.

Lemma lstrip_blank (r : pystr) : blank r -> Float.lstrip r = [].
Proof.
  intros H. rewrite <- (app_nil_r r). rewrite lstrip_blank_prefix by exact H.
  reflexivity.
Qed.

Lemma lstrip_blank_suffix (d r : pystr) :
  blank r ->
  Float.lstrip (d ++ r) =
  match Float.lstrip d with
  | [] => []
  | c :: x => c :: x ++ r
  end.
Proof.
  intros H. induction d as [|c d IH].
  - cbn [List.app Float.lstrip]. apply lstrip_blank, H.
  - cbn [List.app Float.lstrip].
    destruct (Float.Py_ISSPACE c); [exact IH | reflexivity].
Qed.

Lemma drop_trailing_space_blank (r : pystr) :
  blank r -> Float.drop_trailing_space r = [].
Proof.
  induction r as [|c r IH]; [reflexivity|]. intros H.
  apply blank_cons in H as [H1 H2]. cbn [Float.drop_trailing_space].
  rewrite (IH H2), H1. reflexivity.
Qed.

Lemma drop_trailing_space_blank_suffix (x r : pystr) :
  blank r ->
  Float.drop_trailing_space (x ++ r) = Float.drop_trailing_space x.
Proof.
  intros H. induction x as [|a x IH].
  - cbn [List.app]. rewrite (drop_trailing_space_blank r H). reflexivity.
  - cbn [List.app Float.drop_trailing_space]. rewrite IH. reflexivity.
Qed.

Lemma float_from_string_inner_pad (l d r : pystr) :
  blank l -> blank r ->
  Float.float_from_string_inner (l ++ d ++ r) =
  Float.float_from_string_inner d.
Proof.
  intros Hl Hr. unfold Float.float_from_string_inner.
  rewrite (lstrip_blank_prefix l _ Hl), (lstrip_blank_suffix d r Hr).
  destruct (Float.lstrip d) as [|c x]; [reflexivity|].
  unfold Float.rstrip. rewrite (drop_trailing_space_blank_suffix x r Hr).
  reflexivity.
Qed.

Lemma existsb_underscore_pad (l t r : pystr) :
  blank l -> blank r ->
  existsb (N.eqb (chr "_")) (l ++ t ++ r) = existsb (N.eqb (chr "_")) t.
Proof.
  assert (B : forall b, blank b -> existsb (N.eqb (chr "_")) b = false).
  { induction b as [|c b IH]; [reflexivity|]. intros H.
    apply blank_cons in H as [H1 H2]. cbn [existsb].
    destruct (space_facts c H1) as [_ [_ [_ [E _]]]].
    rewrite E, (IH H2). reflexivity. }
  intros Hl Hr. rewrite !existsb_app.
  transitivity (false || (existsb (N.eqb (chr "_")) t || false))%bool.
  - f_equal; [exact (B l Hl) | f_equal; exact (B r Hr)].
  - cbn [orb]. apply orb_false_r.
Qed.

Lemma with_underscores_pad (l t r : pystr) :
  blank l -> blank r ->
  Float.Py_string_to_number_with_underscores (l ++ t ++ r)
    Float.float_from_string_inner =
  Float.Py_string_to_number_with_underscores t
    Float.float_from_string_inner.
Proof.
  intros Hl Hr. unfold Float.Py_string_to_number_with_underscores.
  rewrite (existsb_underscore_pad l t r Hl Hr).
  destruct (existsb (N.eqb (chr "_")) t);
    [|apply float_from_string_inner_pad; assumption].
  rewrite (remove_underscores_blank_prefix l (t ++ r) 0%N Hl eq_refl eq_refl).
  rewrite (remove_underscores_blank_suffix r Hr t 0%N).
  destruct (Float.remove_underscores 0%N t) as [d|]; [|reflexivity].
  cbn [option_map]. apply float_from_string_inner_pad; assumption.
Qed.

Section OperandTexts.
Context {ucd : UnicodeData}.

Lemma transform_loop_blank_prefix (l y : pystr) :
  blank l -> Float.transform_loop (l ++ y) = l ++ Float.transform_loop y.
Proof.
  induction l as [|c l IH]; [reflexivity|]. intros H.
  apply blank_cons in H as [H1 H2]. cbn [List.app Float.transform_loop].
  destruct (space_facts c H1) as [_ [E _]]. rewrite E, (IH H2). reflexivity.
Qed.

Lemma transform_loop_blank (r : pystr) :
  blank r -> Float.transform_loop r = r.
Proof.
  intros H. rewrite <- (app_nil_r r) at 1.
  rewrite (transform_loop_blank_prefix r [] H). apply app_nil_r.
Qed.

(** The loop either carries a blank suffix along or has stopped before
    it. *)
Lemma transform_loop_blank_suffix (s r : pystr) :
  blank r ->
  Float.transform_loop (s ++ r) = Float.transform_loop s ++ r \/
  Float.transform_loop (s ++ r) = Float.transform_loop s.
Proof.
  intros H. induction s as [|ch s IH].
  - left. cbn [List.app Float.transform_loop]. apply transform_loop_blank, H.
  - cbn [List.app Float.transform_loop].
    destruct (ch <? 127)%N; [destruct IH as [-> | ->]; auto|].
    destruct (Py_UNICODE_ISSPACE ch); [destruct IH as [-> | ->]; auto|].
    cbv zeta. destruct (Py_UNICODE_TODECIMAL ch <? 0); [right; reflexivity|].
    destruct IH as [-> | ->]; auto.
Qed.

Lemma forallb_ascii_pad (l s r : pystr) :
  blank l -> blank r ->
  forallb (fun ch => (ch <? 128)%N) (l ++ s ++ r) =
  forallb (fun ch => (ch <? 128)%N) s.
Proof.
  assert (B : forall b, blank b ->
            forallb (fun ch => (ch <? 128)%N) b = true).
  { induction b as [|c b IH]; [reflexivity|]. intros H.
    apply blank_cons in H as [H1 H2]. cbn [forallb].
    destruct (space_facts c H1) as [_ [_ [E _]]].
    rewrite E, (IH H2). reflexivity. }
  intros Hl Hr. rewrite !forallb_app.
  transitivity (true && (forallb (fun ch => (ch <? 128)%N) s && true))%bool.
  - f_equal; [exact (B l Hl) | f_equal; exact (B r Hr)].
  - cbn [andb]. apply andb_true_r.
Qed.

Lemma transform_pad (l s r : pystr) :
  blank l -> blank r ->
  Float.PyUnicode_TransformDecimalAndSpaceToASCII (l ++ s ++ r) =
  l ++ Float.PyUnicode_TransformDecimalAndSpaceToASCII s ++ r \/
  Float.PyUnicode_TransformDecimalAndSpaceToASCII (l ++ s ++ r) =
  l ++ Float.PyUnicode_TransformDecimalAndSpaceToASCII s ++ [].
Proof.
  intros Hl Hr. unfold Float.PyUnicode_TransformDecimalAndSpaceToASCII.
  rewrite (forallb_ascii_pad l s r Hl Hr).
  match goal with
  | |- context [if ?c then _ else _] => destruct c
  end; [left; reflexivity|].
  rewrite (transform_loop_blank_prefix l _ Hl).
  destruct (transform_loop_blank_suffix s r Hr) as [-> | ->];
    [left; reflexivity | right; now rewrite app_nil_r].
Qed.

Lemma PyFloat_FromString_pad (l s r : pystr) :
  blank l -> blank r ->
  Float.PyFloat_FromString (l ++ s ++ r) = Float.PyFloat_FromString s.
Proof.
  intros Hl Hr. unfold Float.PyFloat_FromString.
  destruct (transform_pad l s r Hl Hr) as [-> | ->];
    apply with_underscores_pad; auto; reflexivity.
Qed.

(** Blanks before and after an operand do not change what it parses
    to. *)
Lemma parse_pad (l s r : pystr) :
  blank l -> blank r -> parse (l ++ s ++ r) = parse s.
Proof.
  intros Hl Hr. unfold parse. rewrite (replace_pad l s r Hl Hr).
  apply PyFloat_FromString_pad; assumption.
Qed.

(** [evaluate] sees the operand texts only through what they parse to. *)
Lemma evaluate_parse_ext (a a' b b' : pystr) (o : Operator) :
  parse a = parse a' -> parse b = parse b' ->
  evaluate a b o = evaluate a' b' o.
Proof.
  intros Ea Eb.
  destruct (parse a') as [x|ea] eqn:Ha.
  - destruct (parse b') as [y|eb] eqn:Hb.
    + rewrite (evaluate_valid o a b x y Ea Eb).
      rewrite (evaluate_valid o a' b' x y Ha Hb). reflexivity.
    + rewrite (evaluate_invalid o a b) by (right; eauto).
      rewrite (evaluate_invalid o a' b') by (right; eauto). reflexivity.
  - rewrite (evaluate_invalid o a b) by (left; eauto).
    rewrite (evaluate_invalid o a' b') by (left; eauto). reflexivity.
Qed.

(** X7.  An operand that holds two or more separators, commas and
    periods counted together, gives [InvalidInput] under every operator:
    a number written with a period for the thousands and a comma for the
    decimals, as in "1.000,50", is rejected. *)
Theorem two_separators_invalid (a b : pystr) (o : Operator) :
  (2 <= count (chr ",") a + count (chr ".") a)%nat \/
  (2 <= count (chr ",") b + count (chr ".") b)%nat ->
  evaluate a b o = Some InvalidInput.
Proof.
  assert (P : forall s, (2 <= count (chr ",") s + count (chr ".") s)%nat ->
              exists e, parse s = Raised e).
  { intros s H. destruct (parse s) as [x|e] eqn:E; [|eauto].
    pose proof (parse_one_separator s x E). lia. }
  intros [H|H]; apply evaluate_invalid; [left | right]; apply P, H.
Qed.

(** X8.  Add and Multiply do not depend on the order of the operands.
    Exchanging the two entry texts gives either a NaN in both orders,
    of which nothing more is said, since the sign of a NaN is not
    represented and may depend on the order, or in both orders the same
    result that is not a NaN: the same number, or [InvalidInput] when one
    of the texts is invalid. *)
Theorem add_multiply_commute (a b : pystr) (o : Operator) :
  o = Add \/ o = Multiply ->
  (nan_result (evaluate a b o) /\ nan_result (evaluate b a o)) \/
  (~ nan_result (evaluate a b o) /\ evaluate a b o = evaluate b a o).
Proof.
  intros Ho.
  assert (E : evaluate a b o = evaluate b a o).
  { destruct (parse a) as [x|ea] eqn:Ha.
    - destruct (parse b) as [y|eb] eqn:Hb.
      + rewrite (evaluate_valid o a b x y Ha Hb).
        rewrite (evaluate_valid o b a y x Hb Ha).
        destruct Ho as [-> | ->]; cbn [dispatch];
          [rewrite (float_add_comm x y) | rewrite (float_mul_comm x y)];
          reflexivity.
      + rewrite (evaluate_invalid o a b) by (right; eauto).
        rewrite (evaluate_invalid o b a) by (left; eauto). reflexivity.
    - rewrite (evaluate_invalid o a b) by (left; eauto).
      rewrite (evaluate_invalid o b a) by (right; eauto). reflexivity. }
  rewrite <- E.
  destruct (evaluate a b o) as [[x| |]|].
  - destruct (is_nan x) eqn:N.
    + left. split; exists x; split; auto.
    + right. split; [|reflexivity].
      intros [y [F G]]. inversion F; subst y. congruence.
  - right. split; [|reflexivity]. intros [y [F _]]. discriminate.
  - right. split; [|reflexivity]. intros [y [F _]]. discriminate.
  - right. split; [|reflexivity]. intros [y [F _]]. discriminate.
Qed.

(** X9.  A NaN operand.  When the second operand parses to NaN and the
    first parses, the result is the number NaN under every operator, also
    under Divide.  When the first operand parses to NaN and the second
    parses, the result is the number NaN, except under Divide with a zero
    divisor, which is [DivisionByZero]. *)
Theorem nan_operand (sa sb : pystr) (x : float64) :
  (parse sa = Returned x -> parse sb = Returned S754_nan ->
   forall o, evaluate sa sb o = Some (Number S754_nan)) /\
  (parse sa = Returned S754_nan -> parse sb = Returned x ->
   forall o, evaluate sa sb o =
             Some (match o with
                   | Divide => if float_eq_zero x then DivisionByZero
                               else Number S754_nan
                   | _ => Number S754_nan
                   end)).
Proof.
  split; intros Ha Hb o.
  - rewrite (evaluate_valid o sa sb x S754_nan Ha Hb).
    destruct (float_nan_right x) as [A [S [M D]]].
    destruct o; cbn [dispatch]; rewrite ?A, ?S, ?M; try reflexivity.
    change (float_eq_zero S754_nan) with false. cbv iota. rewrite D.
    reflexivity.
  - rewrite (evaluate_valid o sa sb S754_nan x Ha Hb).
    destruct o; reflexivity.
Qed.

(** X10.  Subtracting an operand from the same text gives the number
    +0.0 when the text parses to a finite number; for an infinity or a
    NaN the result is the number NaN. *)
Theorem subtract_same_text (s : pystr) (x : float64) :
  parse s = Returned x ->
  evaluate s s Subtract =
  Some (Number (if is_finite x then S754_zero false else S754_nan)).
Proof.
  intros H. rewrite (evaluate_valid Subtract s s x x H H). cbn [dispatch].
  destruct (is_finite x) eqn:F.
  - rewrite (float_sub_diag x F). reflexivity.
  - destruct x as [sx|sx| |sx m e]; try discriminate;
      [destruct sx|]; reflexivity.
Qed.

(** X11.  Blanks (space, tab, line feed, vertical tab, form feed,
    carriage return) before and after the operands do not change the
    result. *)
Theorem blanks_around_operands_ignored
    (la ra lb rb a b : pystr) (o : Operator) :
  blank la -> blank ra -> blank lb -> blank rb ->
  evaluate (la ++ a ++ ra) (lb ++ b ++ rb) o = evaluate a b o.
Proof.
  intros Hla Hra Hlb Hrb.
  apply evaluate_parse_ext; apply parse_pad; assumption.
Qed.

(** X12.  An operand that is empty or holds blanks only gives
    [InvalidInput] under every operator, whatever the other operand. *)
Theorem blank_operand_invalid (a b : pystr) (o : Operator) :
  blank a \/ blank b -> evaluate a b o = Some InvalidInput.
Proof.
  assert (P : forall s, blank s -> exists e, parse s = Raised e).
  { intros s H. exists ValueError.
    rewrite <- (app_nil_r s). change (s ++ []) with (s ++ [] ++ []).
    rewrite (parse_pad s [] [] H eq_refl). reflexivity. }
  intros [H|H]; apply evaluate_invalid; [left | right]; apply P, H.
Qed.
(** X13.  The result is [InvalidInput] exactly when [float] rejects one of
    the two operands after the commas are replaced: two operands that
    parse never give [InvalidInput], under any operator. *)
Theorem InvalidInput_iff (a b : pystr) (o : Operator) :
  evaluate a b o = Some InvalidInput <->
  parse a = Raised ValueError \/ parse b = Raised ValueError.
Proof.
  split.
  - intros H. destruct (parse a) as [x|ea] eqn:Ha.
    + destruct (parse b) as [y|eb] eqn:Hb.
      * rewrite (evaluate_valid o a b x y Ha Hb) in H.
        destruct o; cbn [dispatch] in H; try discriminate.
        destruct (float_eq_zero y); discriminate.
      * right. f_equal. exact (parse_raises _ _ Hb).
    + left. f_equal. exact (parse_raises _ _ Ha).
  - intros H. apply evaluate_invalid. destruct H; [left | right]; eauto.
Qed.

(** X14.  The result is [DivisionByZero] exactly under Divide with two
    operands that parse and a divisor that is a zero.  Add, Subtract and
    Multiply never give it, and neither does an operand that does not
    parse. *)
Theorem DivisionByZero_iff (a b : pystr) (o : Operator) :
  evaluate a b o = Some DivisionByZero <->
  o = Divide /\
  exists (x : float64) (sign : bool),
    parse a = Returned x /\ parse b = Returned (S754_zero sign).
Proof.
  split.
  - intros H. destruct (parse a) as [x|ea] eqn:Ha.
    + destruct (parse b) as [y|eb] eqn:Hb.
      * rewrite (evaluate_valid o a b x y Ha Hb) in H.
        destruct o; cbn [dispatch] in H; try discriminate.
        destruct (float_eq_zero y) eqn:Z; [|discriminate].
        apply float_eq_zero_iff in Z as [sign ->].
        split; [reflexivity|]. exists x, sign. split; reflexivity.
      * rewrite (evaluate_invalid o a b) in H by (right; eauto).
        discriminate.
    + rewrite (evaluate_invalid o a b) in H by (left; eauto). discriminate.
  - intros [-> [x [sign [Ha Hb]]]].
    rewrite (evaluate_valid Divide a b x _ Ha Hb). reflexivity.
Qed.
End OperandTexts.

(** * The further properties on concrete inputs *)

Lemma clear_event_resets_witness :
  runs_clear Key_Escape = true /\
  @handle ucd_excerpt Key_Escape
    {| win := {| entry_a := str "12"; entry_b := str "x";
                 result := TkString MSG_INVALID; performed := [] |};
       focus := entry_b_widget |} = (Returned tt, startup).
Proof.
  split; [reflexivity|].
  exact (@clear_event_resets ucd_excerpt Key_Escape
           {| win := {| entry_a := str "12"; entry_b := str "x";
                        result := TkString MSG_INVALID; performed := [] |};
              focus := entry_b_widget |} eq_refl).
Defined.

Lemma calculate_after_clear_is_invalid_witness :
  runs_clear (Invoke btn_clear) = true /\
  runs_calculate Key_Return = true /\
  result (win (snd (@handle ucd_excerpt Key_Return
                      (snd (@handle ucd_excerpt (Invoke btn_clear)
                              {| win := fresh (str "1") (str "2");
                                 focus := other_widget |}))))) =
  TkString MSG_INVALID.
Proof.
  split; [reflexivity|]. split; [reflexivity|].
  rewrite (@calculate_after_clear_is_invalid ucd_excerpt
             (Invoke btn_clear) Key_Return
             {| win := fresh (str "1") (str "2"); focus := other_widget |}
             eq_refl eq_refl).
  reflexivity.
Defined.

Lemma make_btn_command_witness :
  str "%" <> [] /\
  (forall o, str "%" <> op_symbol o) /\
  @parse ucd_excerpt (str "1") = Returned (dyadic 1 0) /\
  @parse ucd_excerpt (str "2") = Returned (dyadic 2 0) /\
  @run_command ucd_excerpt
    (command_of (make_btn (str "mod") (Some (str "%")) None))
    {| win := fresh (str "1") (str "2"); focus := entry_a_widget |} =
  (Returned tt,
   {| win := set_result (TkString MSG_UNKNOWN) (fresh (str "1") (str "2"));
      focus := entry_a_widget |}).
Proof.
  assert (N : str "%" <> []) by discriminate.
  assert (O : forall o, str "%" <> op_symbol o)
    by (intros o; destruct o; discriminate).
  split; [exact N|]. split; [exact O|].
  split; [vm_compute; reflexivity|]. split; [vm_compute; reflexivity|].
  apply (proj2 (proj2 (proj2 (@make_btn_command ucd_excerpt (str "mod") None)))
           (str "%")
           {| win := fresh (str "1") (str "2"); focus := entry_a_widget |}
           (dyadic 1 0) (dyadic 2 0) N O);
    vm_compute; reflexivity.
Defined.

Lemma two_separators_invalid_witness :
  ((2 <= count (chr ",") (str "1.000,50")
         + count (chr ".") (str "1.000,50"))%nat \/
   (2 <= count (chr ",") (str "1") + count (chr ".") (str "1"))%nat) /\
  @evaluate ucd_excerpt (str "1.000,50") (str "1") Add = Some InvalidInput.
Proof.
  assert (H : (2 <= count (chr ",") (str "1.000,50")
                    + count (chr ".") (str "1.000,50"))%nat \/
              (2 <= count (chr ",") (str "1")
                    + count (chr ".") (str "1"))%nat)
    by (left; vm_compute; lia).
  split; [exact H|].
  exact (@two_separators_invalid ucd_excerpt
           (str "1.000,50") (str "1") Add H).
Defined.

Lemma nan_operand_witness :
  @parse ucd_excerpt (str "0") = Returned (S754_zero false) /\
  @parse ucd_excerpt (str "nan") = Returned S754_nan /\
  @evaluate ucd_excerpt (str "0") (str "nan") Divide =
    Some (Number S754_nan) /\
  @evaluate ucd_excerpt (str "nan") (str "0") Divide = Some DivisionByZero.
Proof.
  assert (Z : @parse ucd_excerpt (str "0") = Returned (S754_zero false))
    by (vm_compute; reflexivity).
  assert (N : @parse ucd_excerpt (str "nan") = Returned S754_nan)
    by (vm_compute; reflexivity).
  split; [exact Z|]. split; [exact N|]. split.
  - exact (proj1 (@nan_operand ucd_excerpt (str "0") (str "nan")
                    (S754_zero false)) Z N Divide).
  - exact (proj2 (@nan_operand ucd_excerpt (str "nan") (str "0")
                    (S754_zero false)) N Z Divide).
Defined.

Lemma subtract_same_text_witness :
  @parse ucd_excerpt (str "2,5") = Returned (dyadic 5 (-1)) /\
  @evaluate ucd_excerpt (str "2,5") (str "2,5") Subtract =
  Some (Number (S754_zero false)).
Proof.
  assert (P : @parse ucd_excerpt (str "2,5") = Returned (dyadic 5 (-1)))
    by (vm_compute; reflexivity).
  split; [exact P|].
  exact (@subtract_same_text ucd_excerpt (str "2,5") (dyadic 5 (-1)) P).
Defined.

Lemma blanks_around_operands_ignored_witness :
  blank (str " ") /\ blank [9%N; 10%N] /\ blank [] /\ blank (str "  ") /\
  @evaluate ucd_excerpt (str " " ++ str "3,5" ++ [9%N; 10%N])
                        ([] ++ str "2" ++ str "  ") Multiply =
  @evaluate ucd_excerpt (str "3,5") (str "2") Multiply.
Proof.
  split; [reflexivity|]. split; [reflexivity|].
  split; [reflexivity|]. split; [reflexivity|].
  exact (@blanks_around_operands_ignored ucd_excerpt
           (str " ") [9%N; 10%N] [] (str "  ") (str "3,5") (str "2")
           Multiply eq_refl eq_refl eq_refl eq_refl).
Defined.

Lemma blank_operand_invalid_witness :
  (blank (str "   ") \/ blank (str "2")) /\
  @evaluate ucd_excerpt (str "   ") (str "2") Add = Some InvalidInput.
Proof.
  assert (H : blank (str "   ") \/ blank (str "2")) by (left; reflexivity).
  split; [exact H|].
  exact (@blank_operand_invalid ucd_excerpt (str "   ") (str "2") Add H).
Defined.

Lemma operator_enumeration_closed_witness :
  runs_calculate (Invoke btn_divide) = true /\
  exists o,
    result (win (snd (@handle ucd_excerpt (Invoke btn_divide)
                        {| win := fresh (str "7") (str "0");
                           focus := entry_b_widget |}))) =
    result (snd (@calculate ucd_excerpt (op_symbol o)
                   (fresh (str "7") (str "0")))).
Proof.
  split; [reflexivity|].
  destruct (proj1 (proj2 (proj2 (@operator_enumeration_closed ucd_excerpt)))
              (Invoke btn_divide) eq_refl) as [o H].
  exists o. rewrite H. unfold on_window. cbn [win focus].
  destruct (@calculate ucd_excerpt (op_symbol o) (fresh (str "7") (str "0")))
    as [r w']. reflexivity.
Defined.

Lemma add_multiply_commute_witness :
  (Multiply = Add \/ Multiply = Multiply) /\
  ((nan_result (@evaluate ucd_excerpt (str "1,5") (str "4") Multiply) /\
    nan_result (@evaluate ucd_excerpt (str "4") (str "1,5") Multiply)) \/
   (~ nan_result (@evaluate ucd_excerpt (str "1,5") (str "4") Multiply) /\
    @evaluate ucd_excerpt (str "1,5") (str "4") Multiply =
    @evaluate ucd_excerpt (str "4") (str "1,5") Multiply)).
Proof.
  split; [right; reflexivity|].
  exact (@add_multiply_commute ucd_excerpt (str "1,5") (str "4") Multiply
           (or_intror eq_refl)).
Defined.
